(** * ventyd: event-sourced entities, schema providers and the prisma adapter

    A shallow embedding of the TypeScript sources:
    - [src/standard.ts]                 (module [Standard])
    - [src/typeboxToStandardSchema.ts]  (module [TypeboxStandard])
    - [src/adapter/prisma.ts]           (module [PrismaAdapter])
    - [test/entities/Article.ts]        (module [Article])

    and of what they run on: JavaScript values, objects and exceptions
    (module [JS]), [Date] (module [JSDate]), the Standard Schema interface
    (module [StandardSchemaV1]), the typebox types of the article schema
    (module [TypeBox]) and an in-memory Prisma client (module
    [MemoryPrisma]).  The entity base class, the mutation wrapper and the
    repository are not among the sources; module [Entity] models them from
    the specification.

    JavaScript data is modelled as it is at run time: an object is the
    ordered list of its own properties, a thrown exception is an explicit
    [Throw] result, and an awaited call to the database client takes the
    database from one state to the next. *)

From Stdlib Require Import String Ascii List ZArith NArith Bool Lia.
From Stdlib Require Import Permutation DecimalString.
Import ListNotations.
Open Scope string_scope.
Set Warnings "-register-all".

(* ################################################################# *)
(** * JavaScript run-time model *)

Module JS.

(** Exceptions.  [Error], [TypeError] and [RangeError] are the built-in
    classes the sources throw (or make the engine throw); the other two are
    the failure kinds the specification names for the entity core. *)
Inductive error : Type :=
| Error (message : string)
| TypeError (message : string)
| RangeError (message : string)
| ReadonlyEntityError
| UninitializedError.

Inductive result (A : Type) : Type :=
| Ok (a : A)
| Throw (e : error).
Arguments Ok {A} a.
Arguments Throw {A} e.

Definition bind {A B} (r : result A) (k : A -> result B) : result B :=
  match r with
  | Ok a => k a
  | Throw e => Throw e
  end.

(** [try { return r } catch { h }] *)
Definition try_catch {A} (r : result A) (h : result A) : result A :=
  match r with
  | Ok a => Ok a
  | Throw _ => h
  end.

Fixpoint mapM {A B} (f : A -> result B) (l : list A) : result (list B) :=
  match l with
  | [] => Ok []
  | a :: l' =>
      bind (f a) (fun b => bind (mapM f l') (fun bs => Ok (b :: bs)))
  end.

(** ** Objects

    An object is the list of its own properties in creation order.  Reading
    a property that is not an own property consults the prototype chain; the
    objects of these sources are object literals, whose prototype is
    [Object.prototype]. *)
Definition object (A : Type) : Type := list (string * A).

Fixpoint own {A} (o : object A) (k : string) : option A :=
  match o with
  | [] => None
  | (k', a) :: o' => if String.eqb k' k then Some a else own o' k
  end.

Definition Object_prototype : list string :=
  [ "constructor"; "__defineGetter__"; "__defineSetter__"; "hasOwnProperty";
    "__lookupGetter__"; "__lookupSetter__"; "isPrototypeOf";
    "propertyIsEnumerable"; "toString"; "valueOf"; "__proto__";
    "toLocaleString" ].

Definition inherited (k : string) : bool :=
  existsb (String.eqb k) Object_prototype.

(** The outcome of the property read [o[k]]. *)
Inductive slot (A : Type) : Type :=
| Own (a : A)
| Inherited (name : string)
| Absent.
Arguments Own {A} a.
Arguments Inherited {A} name.
Arguments Absent {A}.

Definition get {A} (o : object A) (k : string) : slot A :=
  match own o k with
  | Some a => Own a
  | None => if inherited k then Inherited k else Absent
  end.

(** [o[k] = a]: an existing property keeps its place, a new one goes last. *)
Fixpoint set {A} (o : object A) (k : string) (a : A) : object A :=
  match o with
  | [] => [(k, a)]
  | (k', a') :: o' =>
      if String.eqb k' k then (k', a) :: o' else (k', a') :: set o' k a
  end.

(** An object literal [{k1: a1, ..., kn: an}], entries evaluated in order. *)
Definition literal {A} (entries : list (string * A)) : object A :=
  fold_left (fun o kv => set o (fst kv) (snd kv)) entries [].

(** *** Property enumeration order

    [Object.keys], [Object.values] and object spread visit array-index keys
    first, in ascending numeric order, then the other string keys in
    creation order. *)
Definition digit (c : ascii) : option N :=
  let n := N_of_ascii c in
  if ((48 <=? n) && (n <=? 57))%N then Some (n - 48)%N else None.

Fixpoint digits (s : string) (acc : N) : option N :=
  match s with
  | EmptyString => Some acc
  | String c s' =>
      match digit c with
      | Some d => digits s' (10 * acc + d)%N
      | None => None
      end
  end.

(** A canonical numeric string below 2^32 - 1. *)
Definition array_index (k : string) : option N :=
  match k with
  | EmptyString => None
  | String c rest =>
      if (Ascii.eqb c "0" && negb (String.eqb rest ""))%bool then None
      else match digits k 0 with
           | Some n => if (n <? 4294967295)%N then Some n else None
           | None => None
           end
  end.

Fixpoint insert_index {A} (n : N) (kv : string * A)
         (l : list (N * (string * A))) : list (N * (string * A)) :=
  match l with
  | [] => [(n, kv)]
  | (m, kv') :: l' =>
      if (n <? m)%N then (n, kv) :: l else (m, kv') :: insert_index n kv l'
  end.

Fixpoint index_props {A} (o : object A) : list (N * (string * A)) :=
  match o with
  | [] => []
  | kv :: o' =>
      match array_index (fst kv) with
      | Some n => insert_index n kv (index_props o')
      | None => index_props o'
      end
  end.

Definition named_props {A} (o : object A) : list (string * A) :=
  filter (fun kv => match array_index (fst kv) with
                    | Some _ => false
                    | None => true
                    end) o.

Definition Object_entries {A} (o : object A) : list (string * A) :=
  map snd (index_props o) ++ named_props o.

Definition Object_keys {A} (o : object A) : list string :=
  map fst (Object_entries o).

Definition Object_values {A} (o : object A) : list A :=
  map snd (Object_entries o).

(** The characters that cannot be written inside a string literal here. *)
Definition dquote : string := String (ascii_of_nat 34) EmptyString.
Definition newline : string := String (ascii_of_nat 10) EmptyString.

(** [Array.prototype.join] on strings. *)
Definition join (sep : string) (l : list string) : string :=
  String.concat sep l.

(** ** Values *)
Inductive value : Type :=
| VUndefined
| VNull
| VBool (b : bool)
| VNum (n : Z)
| VStr (s : string)
| VArr (elems : list value)
| VObj (props : object value)
| VNative (name : string).

(** Structural equality of values: same kind, equal elements in order for
    arrays, the same own properties with equal values, in any order, for
    objects. *)
Fixpoint equals (a b : value) {struct a} : bool :=
  match a with
  | VUndefined => match b with VUndefined => true | _ => false end
  | VNull => match b with VNull => true | _ => false end
  | VBool x => match b with VBool y => Bool.eqb x y | _ => false end
  | VNum x => match b with VNum y => Z.eqb x y | _ => false end
  | VStr x => match b with VStr y => String.eqb x y | _ => false end
  | VNative x => match b with VNative y => String.eqb x y | _ => false end
  | VArr xs =>
      match b with
      | VArr ys =>
          (fix all2 (xs ys : list value) : bool :=
             match xs, ys with
             | [], [] => true
             | x :: xs', y :: ys' => equals x y && all2 xs' ys'
             | _, _ => false
             end) xs ys
      | _ => false
      end
  | VObj ps =>
      match b with
      | VObj qs =>
          Nat.eqb (List.length ps) (List.length qs) &&
          (fix all (ps : list (string * value)) : bool :=
             match ps with
             | [] => true
             | (k, v) :: ps' =>
                 match own qs k with
                 | Some w => equals v w
                 | None => false
                 end && all ps'
             end) ps
      | _ => false
      end
  end.

(** [o.k] on an object. *)
Definition member (o : object value) (k : string) : value :=
  match get o k with
  | Own v => v
  | Inherited n => VNative n
  | Absent => VUndefined
  end.

(** [v.k] on any value: reading a property of [undefined] or [null] throws.
    For primitives, arrays and functions only the end of the prototype
    chain, [Object.prototype], is modelled: their own properties ([length],
    indices) and the methods of their own prototypes are left out. *)
Definition member_of (v : value) (k : string) : result value :=
  match v with
  | VObj o => Ok (member o k)
  | VUndefined =>
      Throw (TypeError
        ("Cannot read properties of undefined (reading '" ++ k ++ "')"))
  | VNull =>
      Throw (TypeError
        ("Cannot read properties of null (reading '" ++ k ++ "')"))
  | _ => Ok (if inherited k then VNative k else VUndefined)
  end.

(** ToBoolean. *)
Definition truthy (v : value) : bool :=
  match v with
  | VUndefined | VNull => false
  | VBool b => b
  | VNum n => negb (n =? 0)%Z
  | VStr s => negb (String.eqb s "")
  | VArr _ | VObj _ | VNative _ => true
  end.

Definition N_to_string (n : N) : string :=
  NilZero.string_of_uint (N.to_uint n).

Fixpoint indexed {A} (i : N) (l : list A) : list (string * A) :=
  match l with
  | [] => []
  | a :: l' => (N_to_string i, a) :: indexed (N.succ i) l'
  end.

Fixpoint chars (s : string) : list string :=
  match s with
  | EmptyString => []
  | String c s' => String c EmptyString :: chars s'
  end.

(** The own enumerable properties copied by [{...v}], in the order they are
    copied. *)
Definition spread (v : value) : list (string * value) :=
  match v with
  | VObj o => Object_entries o
  | VArr l => indexed 0 l
  | VStr s => indexed 0 (map VStr (chars s))
  | VUndefined | VNull | VBool _ | VNum _ | VNative _ => []
  end.

(** [switch (d) { case l1: return a1; ...; default: return dflt }] with every
    case returning: the first label strictly equal to [d] is taken. *)
Fixpoint switch {A} (d : string) (cases : list (string * A)) (dflt : A) : A :=
  match cases with
  | [] => dflt
  | (l, a) :: cases' => if String.eqb d l then a else switch d cases' dflt
  end.

End JS.

(* ################################################################# *)
(** * src/types: events *)

Module Types.

(** [BaseEventType], generic in the schema-defined payload. *)
Record BaseEventType (Body : Type) : Type := mkEvent {
  eventId : string;
  eventCreatedAt : string;
  entityName : string;
  entityId : string;
  eventName : string;
  body : Body
}.
Arguments mkEvent {Body}.
Arguments eventId {Body}.
Arguments eventCreatedAt {Body}.
Arguments entityName {Body}.
Arguments entityId {Body}.
Arguments eventName {Body}.
Arguments body {Body}.

End Types.

(* ################################################################# *)
(** * Standard Schema (the [@standard-schema/spec] interface) *)

Module StandardSchemaV1.
Import JS.

Inductive PropertyKey : Type :=
| KString (s : string)
| KNumber (n : N).

(** A path item is a bare key or a [PathSegment] object [{key}]. *)
Inductive PathItem : Type :=
| Key (k : PropertyKey)
| Segment (key : PropertyKey).

Record Issue : Type := mkIssue {
  message : string;
  path : option (list PathItem)
}.

(** [Result<Output>]: a success carries [value] and no [issues]; a failure
    carries the [issues] array, which is truthy even when empty. *)
Inductive Result (Output : Type) : Type :=
| Success (value : Output)
| Failure (issues : list Issue).
Arguments Success {Output} value.
Arguments Failure {Output} issues.

(** What [validate] hands back: a result, or a promise of one (the result
    the promise would settle to is recorded, nothing here ever reads it). *)
Inductive Returned (Output : Type) : Type :=
| Sync (r : Result Output)
| Promise (eventually : Result Output).
Arguments Sync {Output} r.
Arguments Promise {Output} eventually.

(** [returned instanceof Promise] *)
Definition instanceofPromise {Output} (returned : Returned Output) : bool :=
  match returned with
  | Promise _ => true
  | Sync _ => false
  end.

(** A schema, seen through [schema["~standard"].validate]. *)
Record Schema (Input Output : Type) : Type := mkSchema {
  validate : Input -> Returned Output
}.
Arguments mkSchema {Input Output}.
Arguments validate {Input Output}.

End StandardSchemaV1.

(* ################################################################# *)
(** * src/standard.ts *)

Module Standard.
Import JS StandardSchemaV1.

Definition keyToString (k : PropertyKey) : string :=
  match k with
  | KString s => s
  | KNumber n => N_to_string n
  end.

(** [formatStandardSchemaIssues(issues, eventName)] *)
Definition formatStandardSchemaIssues
           (issues : list Issue) (eventName : option string) : string :=
  let header :=
    match eventName with
    | Some name =>
        if String.eqb name "" then "Validation failed"
        else "Validation failed: " ++ dquote ++ name ++ dquote
    | None => "Validation failed"
    end in
  let errors :=
    join newline
      (map (fun issue =>
              let pathStr :=
                match path issue with
                | Some ((_ :: _) as p) =>
                    join "."
                      (map (fun segment =>
                              match segment with
                              | Segment key => keyToString key
                              | Key k => keyToString k
                              end) p)
                | _ => "(root)"
                end in
              "  - " ++ pathStr ++ ": " ++ message issue)
           issues) in
  if String.eqb errors "" then header else header ++ newline ++ errors.

(** The pieces of [formatStandardSchemaIssues]: its [header], the
    [pathStr] of an issue, and the line an issue is mapped to. *)
Definition header (eventName : option string) : string :=
  match eventName with
  | Some name =>
      if String.eqb name "" then "Validation failed"
      else "Validation failed: " ++ dquote ++ name ++ dquote
  | None => "Validation failed"
  end.

Definition pathStr (issue : Issue) : string :=
  match path issue with
  | Some ((_ :: _) as p) =>
      join "."
        (map (fun segment =>
                match segment with
                | Segment key => keyToString key
                | Key k => keyToString k
                end) p)
  | _ => "(root)"
  end.

Definition issueLine (issue : Issue) : string :=
  "  - " ++ pathStr issue ++ ": " ++ message issue.

(** [standardValidate(schema, input, eventName?)] *)
Definition standardValidate {Input Output}
           (schema : Schema Input Output) (input : Input)
           (eventName : option string) : result Output :=
  match validate schema input with
  | Promise _ => Throw (Error "Promise validation result is not supported")
  | Sync (Failure issues) =>
      Throw (Error (formatStandardSchemaIssues issues eventName))
  | Sync (Success value) => Ok value
  end.

(** A validator fails on an input when validating with it throws: it
    reported issues, or answered with a promise. *)
Definition fails {Input Output} (schema : Schema Input Output)
           (input : Input) : Prop :=
  exists err, standardValidate schema input None = Throw err.

Section Provider.
(** [EventInput] and [StateInput] stand for [unknown]: the raw value a
    caller hands to an event parser and to the state parser. *)
Variables EventInput StateInput EventType StateType Context : Type.

(** The argument of [standard]: the event map and the state schema. *)
Record Args : Type := mkArgs {
  event : object (Schema EventInput EventType);
  state : Schema StateInput StateType
}.

(** The object the provider returns. *)
Record Parsers : Type := mkParsers {
  parseEvent : EventInput -> result EventType;
  parseEventByName : string -> EventInput -> result EventType;
  parseState : StateInput -> result StateType
}.

(** The [for ... of] loop of [parseEvent] and the [throw] after it. *)
Fixpoint parseEvent_loop (schemas : list (Schema EventInput EventType))
         (input : EventInput) : result EventType :=
  match schemas with
  | [] => Throw (Error "Validation failed")
  | eventSchema :: rest =>
      try_catch (standardValidate eventSchema input None)
                (parseEvent_loop rest input)
  end.

Definition standard (args : Args) (context : Context) : Parsers :=
  {| parseEvent := fun input =>
       parseEvent_loop (Object_values (event args)) input;
     parseEventByName := fun eventName input =>
       match get (event args) eventName with
       | Absent =>
           (* [!eventSchema] *)
           let availableEvents := join ", " (Object_keys (event args)) in
           Throw (Error ("Event name " ++ dquote ++ eventName ++ dquote ++
                         " not found. Available events: " ++
                         availableEvents))
       | Own eventSchema =>
           standardValidate eventSchema input (Some eventName)
       | Inherited _ =>
           (* a built-in function or object is truthy and has no
              ["~standard"] property *)
           Throw (TypeError
             "Cannot read properties of undefined (reading 'validate')")
       end;
     parseState := fun input => standardValidate (state args) input None |}.

End Provider.
Arguments mkArgs {EventInput StateInput EventType StateType}.
Arguments event {EventInput StateInput EventType StateType}.
Arguments state {EventInput StateInput EventType StateType}.
Arguments mkParsers {EventInput StateInput EventType StateType}.
Arguments parseEvent {EventInput StateInput EventType StateType}.
Arguments parseEventByName {EventInput StateInput EventType StateType}.
Arguments parseState {EventInput StateInput EventType StateType}.
Arguments parseEvent_loop {EventInput EventType}.
Arguments standard {EventInput StateInput EventType StateType Context}.

End Standard.

(* ################################################################# *)
(** * src/typeboxToStandardSchema.ts *)

Module TypeboxStandard.
Import JS StandardSchemaV1.

(** [s.slice(1)] *)
Definition slice1 (s : string) : string :=
  match s with
  | EmptyString => EmptyString
  | String _ s' => s'
  end.

(** [s.split(sep)] for a one-character separator: always at least one
    piece. *)
Fixpoint split (sep : ascii) (s : string) : list string :=
  match s with
  | EmptyString => [EmptyString]
  | String c s' =>
      if Ascii.eqb c sep then EmptyString :: split sep s'
      else match split sep s' with
           | [] => [String c EmptyString]
           | piece :: pieces => String c piece :: pieces
           end
  end.

(** [s.replace(/ab/g, r)] for a two-character pattern [ab]: left to right,
    matches do not overlap. *)
Fixpoint replaceAll2 (a b : ascii) (r : string) (s : string) : string :=
  match s with
  | EmptyString => EmptyString
  | String c t =>
      match t with
      | EmptyString => s
      | String d s' =>
          if (Ascii.eqb c a && Ascii.eqb d b)%bool
          then r ++ replaceAll2 a b r s'
          else String c (replaceAll2 a b r t)
      end
  end.

Definition unescape (segment : string) : string :=
  replaceAll2 "~" "0" "~" (replaceAll2 "~" "1" "/" segment).

(** [PathSegments(pointer)] *)
Definition PathSegments (pointer : string) : list string :=
  if Nat.eqb (String.length pointer) 0 then []
  else map unescape (split "/" (slice1 pointer)).

(** The JSON Pointer (RFC 6901) of a sequence of property-access segments,
    which is what typebox reports as [instancePath]: each segment is
    written after a [/], with [~] as [~0] and [/] as [~1]. *)
Fixpoint escape (segment : string) : string :=
  match segment with
  | EmptyString => EmptyString
  | String c s' =>
      if Ascii.eqb c "~" then String "~" (String "0" (escape s'))
      else if Ascii.eqb c "/" then String "~" (String "1" (escape s'))
      else String c (escape s')
  end.

Fixpoint pointer (segments : list string) : string :=
  match segments with
  | [] => EmptyString
  | segment :: rest => String "/" (escape segment ++ pointer rest)
  end.

(** The fields of typebox's [TLocalizedValidationError] that are read. *)
Record TLocalizedValidationError : Type := mkError {
  instancePath : string;
  message : string
}.

(** [Issue(error)] *)
Definition Issue (error : TLocalizedValidationError) : StandardSchemaV1.Issue :=
  let path := PathSegments (instancePath error) in
  {| StandardSchemaV1.message := message error;
     StandardSchemaV1.path := Some (map (fun s => Key (KString s)) path) |}.

(** typebox's compiled [Validator]: the two methods that are called. *)
Record Validator (Value : Type) : Type := mkValidator {
  Check : Value -> bool;
  Errors : Value -> list TLocalizedValidationError
}.
Arguments mkValidator {Value}.
Arguments Check {Value}.
Arguments Errors {Value}.

(** [StandardSchemaProps.validate(value)] *)
Definition validate {Value} (validator : Validator Value) (value : Value)
  : Returned Value :=
  if Check validator value then Sync (Success value)
  else
    let errors := Errors validator value in
    let issues := map (fun error => Issue error) errors in
    Sync (Failure issues).

(** [typeboxToStandardSchema(type)], given the validator compiled for
    [type]. *)
Definition typeboxToStandardSchema {Value} (validator : Validator Value)
  : Schema Value Value :=
  {| StandardSchemaV1.validate := validate validator |}.

End TypeboxStandard.

(* ################################################################# *)
(** * JavaScript [Date] *)

Module JSDate.
Import JS.
#[local] Open Scope Z_scope.

(** A [Date] object is its time value: milliseconds since the epoch, or
    [None] for NaN (an invalid date). *)
Definition Date : Type := option Z.

Definition msPerDay : Z := 86400000.
Definition maxTime : Z := 8640000000000000.

(** [TimeClip] *)
Definition TimeClip (t : Z) : Date :=
  if Z.abs t <=? maxTime then Some t else None.

Definition isLeap (y : Z) : bool :=
  ((y mod 4 =? 0) && negb (y mod 100 =? 0)) || (y mod 400 =? 0).

Definition daysInMonth (y m : Z) : Z :=
  if m =? 2 then (if isLeap y then 29 else 28)
  else if (m =? 4) || (m =? 6) || (m =? 9) || (m =? 11) then 30
  else 31.

(** Day number (days since 1970-01-01) of a date of the proleptic
    Gregorian calendar, and back. *)
Definition daysFromCivil (y m d : Z) : Z :=
  let y' := if m <=? 2 then y - 1 else y in
  let era := y' / 400 in
  let yoe := y' - era * 400 in
  let doy := (153 * (if 2 <? m then m - 3 else m + 9) + 2) / 5 + d - 1 in
  let doe := yoe * 365 + yoe / 4 - yoe / 100 + doy in
  era * 146097 + doe - 719468.

Definition civilFromDays (z : Z) : Z * Z * Z :=
  let z' := z + 719468 in
  let era := z' / 146097 in
  let doe := z' - era * 146097 in
  let yoe := (doe - doe / 1460 + doe / 36524 - doe / 146096) / 365 in
  let doy := doe - (365 * yoe + yoe / 4 - yoe / 100) in
  let mp := (5 * doy + 2) / 153 in
  let d := doy - (153 * mp + 2) / 5 + 1 in
  let m := if mp <? 10 then mp + 3 else mp - 9 in
  let y := yoe + era * 400 in
  (if m <=? 2 then y + 1 else y, m, d).

(** *** Reading the date-time string format *)
Fixpoint readDigits (n : nat) (acc : Z) (s : string) : option (Z * string) :=
  match n with
  | O => Some (acc, s)
  | S n' =>
      match s with
      | EmptyString => None
      | String c s' =>
          match digit c with
          | Some d => readDigits n' (10 * acc + Z.of_N d) s'
          | None => None
          end
      end
  end.

Definition expect (c : ascii) (s : string) : option string :=
  match s with
  | String c' s' => if Ascii.eqb c' c then Some s' else None
  | EmptyString => None
  end.

Definition andThen {A B} (o : option A) (k : A -> option B) : option B :=
  match o with
  | Some a => k a
  | None => None
  end.

(** The time value of a string of the form [YYYY-MM-DDTHH:mm:ss.sssZ] whose
    fields name a date and a time of day that exist. *)
Definition parseUTC (s : string) : option Z :=
  andThen (readDigits 4 0 s) (fun '(Y, s) =>
  andThen (expect "-" s) (fun s =>
  andThen (readDigits 2 0 s) (fun '(M, s) =>
  andThen (expect "-" s) (fun s =>
  andThen (readDigits 2 0 s) (fun '(D, s) =>
  andThen (expect "T" s) (fun s =>
  andThen (readDigits 2 0 s) (fun '(h, s) =>
  andThen (expect ":" s) (fun s =>
  andThen (readDigits 2 0 s) (fun '(mi, s) =>
  andThen (expect ":" s) (fun s =>
  andThen (readDigits 2 0 s) (fun '(sec, s) =>
  andThen (expect "." s) (fun s =>
  andThen (readDigits 3 0 s) (fun '(ms, s) =>
  andThen (expect "Z" s) (fun s =>
    if (String.eqb s "" &&
        (1 <=? M) && (M <=? 12) && (1 <=? D) && (D <=? daysInMonth Y M) &&
        (h <=? 23) && (mi <=? 59) && (sec <=? 59))%bool
    then Some (daysFromCivil Y M D * msPerDay +
               h * 3600000 + mi * 60000 + sec * 1000 + ms)
    else None)))))))))))))).

(** *** Writing it *)

(** The character of a decimal digit. *)
Definition digitChar (d : Z) : ascii := ascii_of_N (Z.to_N (48 + d)).

(** A number in a field of [width] decimal digits, zeros in front (the
    number has at most [width] digits). *)
Fixpoint pad (width : nat) (n : Z) : string :=
  match width with
  | O => EmptyString
  | S w => (pad w (n / 10) ++ String (digitChar (n mod 10)) EmptyString)%string
  end.

Definition formatUTC (t : Z) : string :=
  let day := t / msPerDay in
  let ms := t mod msPerDay in
  let '(y, m, d) := civilFromDays day in
  let year :=
    if (0 <=? y) && (y <=? 9999) then pad 4 y
    else if y <? 0 then String.append "-" (pad 6 (Z.abs y))
    else String.append "+" (pad 6 y) in
  let hh := pad 2 (ms / 3600000) in
  let mm := pad 2 ((ms / 60000) mod 60) in
  let ss := pad 2 ((ms / 1000) mod 60) in
  let sss := pad 3 (ms mod 1000) in
  (year ++ "-" ++ pad 2 m ++ "-" ++ pad 2 d ++ "T" ++
   hh ++ ":" ++ mm ++ ":" ++ ss ++ "." ++ sss ++ "Z")%string.

(** The time values [toISOString] writes with a four-digit year:
    0000-01-01T00:00:00.000Z to 9999-12-31T23:59:59.999Z. *)
Definition fourDigitYear (t : Z) : Prop :=
  -62167219200000 <= t <= 253402300799999.

Section Engine.
(** What [Date.parse] makes of every other string (other forms of the
    format, local times, engine-specific fallbacks). *)
Variable parseOther : string -> option Z.

(** [new Date(s)] *)
Definition newDate (s : string) : Date :=
  match parseUTC s with
  | Some t => TimeClip t
  | None => andThen (parseOther s) TimeClip
  end.

(** [d.toISOString()] *)
Definition toISOString (d : Date) : result string :=
  match d with
  | Some t => Ok (formatUTC t)
  | None => Throw (RangeError "Invalid time value")
  end.
End Engine.

End JSDate.

(* ################################################################# *)
(** * src/adapter/prisma.ts *)

Module PrismaAdapter.
Import JS JSDate.

(** [BaseEventTypeRow]: the event with [eventCreatedAt] as a [Date] and the
    body as stored. *)
Record BaseEventTypeRow (Body : Type) : Type := mkRow {
  eventId : string;
  eventName : string;
  entityId : string;
  entityName : string;
  eventCreatedAt : Date;
  body : Body
}.
Arguments mkRow {Body}.
Arguments eventId {Body}.
Arguments eventName {Body}.
Arguments entityId {Body}.
Arguments entityName {Body}.
Arguments eventCreatedAt {Body}.
Arguments body {Body}.

(** The [where] argument of [findMany]. *)
Record Where : Type := mkWhere {
  where_entityName : string;
  where_entityId : string
}.

(** The argument of [snapshot.upsert]. *)
Record UpsertArgs (SnapshotRow : Type) : Type := mkUpsert {
  where_id : string;
  update : SnapshotRow;
  create : SnapshotRow
}.
Arguments mkUpsert {SnapshotRow}.
Arguments where_id {SnapshotRow}.
Arguments update {SnapshotRow}.
Arguments create {SnapshotRow}.

(** Queries run one after the other, each on the database the previous one
    left; [None] as soon as one fails. *)
Fixpoint runAll {DB Query : Type} (run : Query -> DB -> option DB)
         (qs : list Query) (db : DB) : option DB :=
  match qs with
  | [] => Some db
  | q :: qs' =>
      match run q db with
      | Some db' => runAll run qs' db'
      | None => None
      end
  end.

(** What Prisma documents for [$transaction([...])]: when the call resolves
    every query has run, in order; when it rejects the database is as it
    was. *)
Definition AllOrNothing {DB Query : Type}
           (transaction : list Query -> DB -> DB * result unit)
           (run : Query -> DB -> option DB) : Prop :=
  forall qs db db' r,
    transaction qs db = (db', r) ->
    (r = Ok tt /\ runAll run qs db = Some db') \/
    (exists err, r = Throw err /\ db' = db).

Section Adapter.
(** The schema's event payload and state, the snapshot row, the
    database the client talks to, and the client's pending queries: a
    Prisma model call builds a query that runs only when it is awaited or
    handed to [$transaction]. *)
Variables Body State SnapshotRow DB Query : Type.
Variable parseOther : string -> option Z.

Definition Event : Type := Types.BaseEventType Body.
Definition EventRow : Type := BaseEventTypeRow Body.

(** [VentydAdapterOptions].  A call that is awaited takes the database
    from one state to the next and resolves or rejects. *)
Record VentydAdapterOptions : Type := mkOptions {
  prisma_transaction : list Query -> DB -> DB * result unit;
  event_findMany : Where -> DB -> DB * result (list EventRow);
  event_createMany : list EventRow -> Query;
  snapshot_upsert : UpsertArgs SnapshotRow -> Query;
  entityToRow : string -> State -> SnapshotRow
}.

Definition eventToRow (event : Event) : EventRow :=
  {| eventId := Types.eventId event;
     eventName := Types.eventName event;
     entityId := Types.entityId event;
     entityName := Types.entityName event;
     eventCreatedAt := newDate parseOther (Types.eventCreatedAt event);
     body := Types.body event |}.

Definition rowToEvent (row : EventRow) : result Event :=
  bind (toISOString (eventCreatedAt row)) (fun iso =>
  Ok {| Types.eventId := eventId row;
        Types.eventName := eventName row;
        Types.entityId := entityId row;
        Types.entityName := entityName row;
        Types.eventCreatedAt := iso;
        Types.body := body row |}).

(** The [Adapter] the function returns. *)
Record Adapter : Type := mkAdapter {
  getEventsByEntityId :
    string (* entityName *) -> string (* entityId *) ->
    DB -> DB * result (list Event);
  commitEvents :
    list Event -> string (* entityId *) -> State ->
    DB -> DB * result unit
}.

Definition prismaAdapter (options : VentydAdapterOptions) : Adapter :=
  {| getEventsByEntityId := fun entityName entityId db =>
       let '(db', rows) :=
         event_findMany options
           {| where_entityName := entityName;
              where_entityId := entityId |} db in
       (db', bind rows (fun rows => mapM rowToEvent rows));
     commitEvents := fun events entityId state db =>
       let snapshotRow := entityToRow options entityId state in
       prisma_transaction options
         [ event_createMany options (map eventToRow events);
           snapshot_upsert options
             {| where_id := entityId;
                update := snapshotRow;
                create := snapshotRow |} ]
         db |}.

End Adapter.
Arguments mkOptions {Body State SnapshotRow DB Query}.
Arguments prisma_transaction {Body State SnapshotRow DB Query}.
Arguments event_findMany {Body State SnapshotRow DB Query}.
Arguments event_createMany {Body State SnapshotRow DB Query}.
Arguments snapshot_upsert {Body State SnapshotRow DB Query}.
Arguments entityToRow {Body State SnapshotRow DB Query}.
Arguments eventToRow {Body}.
Arguments rowToEvent {Body}.
Arguments getEventsByEntityId {Body State DB}.
Arguments commitEvents {Body State DB}.
Arguments prismaAdapter {Body State SnapshotRow DB Query}.

(** The rows a [where: {entityName, entityId}] clause asks for. *)
Definition asked {Body : Type} (w : Where) (row : BaseEventTypeRow Body)
  : bool :=
  (String.eqb (entityName row) (where_entityName w) &&
   String.eqb (entityId row) (where_entityId w))%bool.

(** A client whose event table, [table db], keeps its rows in insertion
    order: [findMany] answers the rows the [where] clause asks for, in the
    order of the table and without changing the database, and once a
    [$transaction] of a [createMany] and an [upsert] has resolved the rows
    of the [createMany] are at the end of the table. *)
Definition InsertionOrdered {Body State SnapshotRow DB Query : Type}
           (options : VentydAdapterOptions Body State SnapshotRow DB Query)
           (table : DB -> list (BaseEventTypeRow Body)) : Prop :=
  (forall w db,
      event_findMany options w db = (db, Ok (filter (asked w) (table db)))) /\
  (forall rows args db db',
      prisma_transaction options
        [event_createMany options rows; snapshot_upsert options args] db
      = (db', Ok tt) ->
      table db' = (table db ++ rows)%list).

End PrismaAdapter.

(* ################################################################# *)
(** * The entity core *)

Module Entity.
Import JS JSDate Types.

(** What the ambient calls of one operation return: the [n]-th fresh
    identifier and the reading of the entity's time source. *)
Record Ambient : Type := mkAmbient {
  randomUUID : nat -> string;
  now : Date
}.

(** [options] of [dispatch] and [createEvent]. *)
Record EventOptions : Type := mkEventOptions {
  opt_eventId : option string;
  opt_eventCreatedAt : option string
}.

Definition noOptions : EventOptions :=
  {| opt_eventId := None; opt_eventCreatedAt := None |}.

Section Core.
Variables Body State : Type.

Definition Event : Type := BaseEventType Body.

(** Modelled from the spec: the schema an entity class is built from
    ([defineSchema], src/defineSchema.ts and src/types are not under src/):
    the entity name, the name of the initial event, and the provider's
    parsers. *)
Record Schema : Type := mkSchema {
  schema_entityName : string;
  initialEventName : string;
  parsers : Standard.Parsers Event State Event State
}.

(** Modelled from the spec: an entity instance (src/Entity.ts is not
    under src/; the field names are those of the [Entity] interface):
    identity, state ([None] until an event has been applied or a state
    loaded), the queue of uncommitted events and the readonly flag.
    Listeners are left out. *)
Record Entity : Type := mkEntity {
  entityName : string;
  entityId : string;
  state_ : option State;
  queuedEvents : list Event;
  readonly : bool
}.

Variable schema : Schema.
(** The reducer and the seed it is first called with. *)
Variable reducer : State -> Event -> State.
Variable undefined : State.

(** Modelled from the spec: the [state] accessor fails with an
    [UninitializedError] before any event has been applied. *)
Definition state (e : Entity) : result State :=
  match state_ e with
  | Some s => Ok s
  | None => Throw UninitializedError
  end.

(** Modelled from the spec: [createEvent] builds the event envelope:
    [eventId] and [eventCreatedAt] from the options or from the ambient
    identifier generator and time source, identity from the entity. *)
Definition createEvent (amb : Ambient) (n : nat) (entityId : string)
           (eventName : string) (body : Body) (options : EventOptions)
  : result Event :=
  bind (match opt_eventCreatedAt options with
        | Some t => Ok t
        | None => toISOString (now amb)
        end) (fun createdAt =>
  Ok {| Types.eventId :=
          match opt_eventId options with
          | Some i => i
          | None => randomUUID amb n
          end;
        Types.eventCreatedAt := createdAt;
        Types.entityName := schema_entityName schema;
        Types.entityId := entityId;
        Types.eventName := eventName;
        Types.body := body |}).

(** Modelled from the spec: validate the candidate, reduce it into the
    state, append it to the queue. *)
Definition applyEvent (amb : Ambient) (n : nat) (eventName : string)
           (body : Body) (options : EventOptions) (e : Entity)
  : Entity * result unit :=
  match bind (createEvent amb n (entityId e) eventName body options)
          (Standard.parseEventByName (parsers schema) eventName) with
  | Throw err => (e, Throw err)
  | Ok event =>
      let prev := match state_ e with Some s => s | None => undefined end in
      ({| entityName := entityName e;
          entityId := entityId e;
          state_ := Some (reducer prev event);
          queuedEvents := queuedEvents e ++ [event];
          readonly := readonly e |}, Ok tt)
  end.

(** Modelled from the spec: [dispatch] fails with a
    [ReadonlyEntityError] on an entity that is not mutable, before any
    event is built. *)
Definition dispatch (amb : Ambient) (eventName : string) (body : Body)
           (options : EventOptions) (e : Entity) : Entity * result unit :=
  if readonly e then (e, Throw ReadonlyEntityError)
  else applyEvent amb 0 eventName body options e.

(** Modelled from the spec: [flush] returns and clears the queue. *)
Definition flush (e : Entity) : list Event * Entity :=
  (queuedEvents e,
   {| entityName := entityName e; entityId := entityId e;
      state_ := state_ e; queuedEvents := []; readonly := readonly e |}).

(** Modelled from the spec: [create]: the identifier is supplied or
    generated, the initial event is built, validated and reduced, the
    entity is mutable and the initial event is queued. *)
Definition create (amb : Ambient) (body : Body) (id : option string)
           (options : EventOptions) : result Entity :=
  let entityId := match id with
                  | Some i => i
                  | None => randomUUID amb 0
                  end in
  let fresh :=
    {| entityName := schema_entityName schema; entityId := entityId;
       state_ := None; queuedEvents := []; readonly := false |} in
  match applyEvent amb 1 (initialEventName schema) body options fresh with
  | (e, Ok _) => Ok e
  | (_, Throw err) => Throw err
  end.

(** Modelled from the spec: [load]: the state is taken as given, nothing
    is queued, and the entity is readonly unless [UNSAFE_mutable]. *)
Definition load (entityId : string) (s : State) (UNSAFE_mutable : bool)
  : Entity :=
  {| entityName := schema_entityName schema; entityId := entityId;
     state_ := Some s; queuedEvents := [];
     readonly := negb UNSAFE_mutable |}.

(** Modelled from the spec: [loadFromEvents]: the state is the reducer
    folded over the events from the seed; nothing is queued; the entity
    is mutable. *)
Definition loadFromEvents (entityId : string) (events : list Event)
  : Entity :=
  {| entityName := schema_entityName schema; entityId := entityId;
     state_ := match events with
               | [] => None
               | _ => Some (fold_left reducer events undefined)
               end;
     queuedEvents := []; readonly := false |}.

(** Modelled from the spec: [mutation(entity, fn)] (src/mutation.ts is
    not under src/) rejects with a [ReadonlyEntityError] before calling
    [fn] when the entity is not mutable; otherwise it calls [fn] with the
    entity's dispatch. *)
Definition mutation {Args : Type}
           (fn : (string -> Body -> Entity -> Entity * result unit) ->
                 Args -> Entity -> Entity * result unit)
           (amb : Ambient) (args : Args) (this : Entity)
  : Entity * result unit :=
  if readonly this then (this, Throw ReadonlyEntityError)
  else fn (fun eventName body => dispatch amb eventName body noOptions)
          args this.

(** ** The repository *)
Section Repository.
Variable DB : Type.
Variable adapter : PrismaAdapter.Adapter Body State DB.

(** Modelled from the spec: [findOne] (src/createRepository.ts is not
    under src/) asks the adapter for the entity's events, answers [null]
    when there are none and replays them otherwise. *)
Definition findOne (entityId : string) (db : DB)
  : DB * result (option Entity) :=
  let '(db', r) :=
    PrismaAdapter.getEventsByEntityId adapter
      (schema_entityName schema) entityId db in
  (db', bind r (fun events =>
          match events with
          | [] => Ok None
          | _ => Ok (Some (loadFromEvents entityId events))
          end)).

(** Modelled from the spec: [commit] hands the queued events and the
    current state to the adapter's [commitEvents]; the queue is cleared
    when the adapter succeeds and left as it is when it fails. *)
Definition commit (e : Entity) (db : DB) : Entity * DB * result unit :=
  match state e with
  | Throw err => (e, db, Throw err)
  | Ok s =>
      let '(events, flushed) := flush e in
      match PrismaAdapter.commitEvents adapter events (entityId e) s db
      with
      | (db', Ok _) => (flushed, db', Ok tt)
      | (db', Throw err) => (e, db', Throw err)
      end
  end.
End Repository.

End Core.
Arguments mkSchema {Body State}.
Arguments schema_entityName {Body State}.
Arguments initialEventName {Body State}.
Arguments parsers {Body State}.
Arguments mkEntity {Body State}.
Arguments entityName {Body State}.
Arguments entityId {Body State}.
Arguments state_ {Body State}.
Arguments queuedEvents {Body State}.
Arguments readonly {Body State}.
Arguments state {Body State}.
Arguments createEvent {Body State}.
Arguments applyEvent {Body State}.
Arguments dispatch {Body State}.
Arguments flush {Body State}.
Arguments create {Body State}.
Arguments load {Body State}.
Arguments loadFromEvents {Body State}.
Arguments mutation {Body State} schema reducer undefined {Args}.
Arguments findOne {Body State}.
Arguments commit {Body State}.

End Entity.

(* ################################################################# *)
(** * The typebox types of the article schema *)

Module TypeBox.
Import JS.

(** The type constructors [test/entities/Article.ts] uses: [Type.String]
    with its length bounds, [Type.Boolean], [Type.Array], and [Type.Object]
    whose properties are required or wrapped in [Type.Optional]. *)
Inductive TSchema : Type :=
| TString (minLength maxLength : option nat)
| TBoolean
| TArray (items : TSchema)
| TObject (properties : list (string * (bool * TSchema))).

Definition required (t : TSchema) : bool * TSchema := (false, t).
Definition Optional (t : TSchema) : bool * TSchema := (true, t).

Definition atLeast (bound : option nat) (n : nat) : bool :=
  match bound with
  | Some b => Nat.leb b n
  | None => true
  end.

Definition atMost (bound : option nat) (n : nat) : bool :=
  match bound with
  | Some b => Nat.leb n b
  | None => true
  end.

(** The value check of typebox (an external library) for these
    constructors: a required property is checked on [value[key]]; an
    optional one only when [value[key]] is not [undefined]; properties the
    schema does not name are allowed. *)
Fixpoint check (t : TSchema) (v : value) {struct t} : bool :=
  match t with
  | TString minLength maxLength =>
      match v with
      | VStr s =>
          atLeast minLength (String.length s) &&
          atMost maxLength (String.length s)
      | _ => false
      end
  | TBoolean =>
      match v with
      | VBool _ => true
      | _ => false
      end
  | TArray items =>
      match v with
      | VArr l => forallb (check items) l
      | _ => false
      end
  | TObject properties =>
      match v with
      | VObj o =>
          (fix known (ps : list (string * (bool * TSchema))) : bool :=
             match ps with
             | [] => true
             | (k, (optional, t')) :: ps' =>
                 (match optional, member o k with
                  | true, VUndefined => true
                  | _, v' => check t' v'
                  end) && known ps'
             end) properties
      | _ => false
      end
  end.

(** What [check] asks of one property of an object. *)
Definition propertyOk (optional : bool) (t : TSchema) (v : value) : bool :=
  match optional, v with
  | true, VUndefined => true
  | _, v' => check t v'
  end.

End TypeBox.

(* ################################################################# *)
(** * An in-memory Prisma client *)

Module MemoryPrisma.
Import JS PrismaAdapter.

Section Client.
Variables Body SnapshotRow : Type.

(** The two tables: event rows in insertion order, snapshots by id. *)
Record DB : Type := mkDB {
  events : list (BaseEventTypeRow Body);
  snapshots : object SnapshotRow
}.

Definition empty : DB := {| events := []; snapshots := [] |}.

(** The pending queries the two write calls of the adapter build. *)
Inductive Query : Type :=
| CreateMany (data : list (BaseEventTypeRow Body))
| Upsert (args : UpsertArgs SnapshotRow).

Definition stored (db : DB) (id : string) : bool :=
  existsb (fun row => String.eqb (eventId row) id) (events db).

Fixpoint distinct (ids : list string) : bool :=
  match ids with
  | [] => true
  | i :: ids' => negb (existsb (String.eqb i) ids') && distinct ids'
  end.

(** One query: [createMany] appends the rows and fails on an [eventId]
    that is stored already or given twice, or on an invalid date;
    [upsert] writes the snapshot of the id. *)
Definition run (q : Query) (db : DB) : option DB :=
  match q with
  | CreateMany data =>
      if (distinct (map eventId data) &&
          forallb (fun row => negb (stored db (eventId row)) &&
                     match eventCreatedAt row with
                     | Some _ => true
                     | None => false
                     end) data)%bool
      then Some {| events := events db ++ data; snapshots := snapshots db |}
      else None
  | Upsert args =>
      Some {| events := events db;
              snapshots :=
                match own (snapshots db) (where_id args) with
                | Some _ => JS.set (snapshots db) (where_id args) (update args)
                | None => JS.set (snapshots db) (where_id args) (create args)
                end |}
  end.

(** [$transaction]: every query takes effect, or none does. *)
Definition transaction (qs : list Query) (db : DB) : DB * result unit :=
  match runAll run qs db with
  | Some db' => (db', Ok tt)
  | None => (db, Throw (Error "Transaction failed"))
  end.

Definition matches (w : Where) (row : BaseEventTypeRow Body) : bool :=
  (String.eqb (entityName row) (where_entityName w) &&
   String.eqb (entityId row) (where_entityId w))%bool.

(** [findMany]: the matching rows, in insertion order. *)
Definition findMany (w : Where) (db : DB)
  : DB * result (list (BaseEventTypeRow Body)) :=
  (db, Ok (filter (matches w) (events db))).

Definition client {State} (entityToRow : string -> State -> SnapshotRow)
  : VentydAdapterOptions Body State SnapshotRow DB Query :=
  {| prisma_transaction := transaction;
     event_findMany := findMany;
     event_createMany := CreateMany;
     snapshot_upsert := Upsert;
     entityToRow := entityToRow |}.
End Client.
Arguments mkDB {Body SnapshotRow}.
Arguments events {Body SnapshotRow}.
Arguments snapshots {Body SnapshotRow}.
Arguments empty {Body SnapshotRow}.
Arguments CreateMany {Body SnapshotRow}.
Arguments Upsert {Body SnapshotRow}.
Arguments run {Body SnapshotRow}.
Arguments transaction {Body SnapshotRow}.
Arguments matches {Body}.
Arguments findMany {Body SnapshotRow}.
Arguments client {Body SnapshotRow State}.

End MemoryPrisma.

(* ################################################################# *)
(** * test/entities/Article.ts: the article entity *)

Module Article.
Import JS JSDate Types TypeBox.

Definition Event : Type := BaseEventType (object value).
Definition State : Type := value.

(** The event and state definitions handed to [typebox]. *)
Definition eventDefinition : object TSchema :=
  [ ("created", TObject
      [ ("title", required (TString (Some 1) (Some 200)));
        ("content", required (TString (Some 1) None));
        ("author", required (TString None None));
        ("tags", required (TArray (TString None None))) ]);
    ("title_updated", TObject
      [ ("title", required (TString (Some 1) (Some 200))) ]);
    ("content_updated", TObject
      [ ("content", required (TString (Some 1) None)) ]);
    ("tags_updated", TObject
      [ ("tags", required (TArray (TString None None))) ]);
    ("published", TObject
      [ ("publishedAt", required (TString None None)) ]);
    ("unpublished", TObject
      [ ("reason", Optional (TString None None)) ]);
    ("archived", TObject
      [ ("reason", required (TString None None)) ]);
    ("unarchived", TObject []) ].

Definition stateDefinition : TSchema :=
  TObject
    [ ("title", required (TString None None));
      ("content", required (TString None None));
      ("author", required (TString None None));
      ("tags", required (TArray (TString None None)));
      ("isPublished", required TBoolean);
      ("publishedAt", Optional (TString None None));
      ("isArchived", required TBoolean);
      ("archivedReason", Optional (TString None None));
      ("archivedAt", Optional (TString None None)) ].

(** [articleReducer]: one arm per event name, [default] returns
    [prevState]. *)
Definition articleReducer (prevState : State) (event : Event) : State :=
  switch (eventName event)
    [ ("article:created",
        VObj (literal
          [ ("title", member (body event) "title");
            ("content", member (body event) "content");
            ("author", member (body event) "author");
            ("tags", member (body event) "tags");
            ("isPublished", VBool false);
            ("publishedAt", VUndefined);
            ("isArchived", VBool false);
            ("archivedReason", VUndefined);
            ("archivedAt", VUndefined) ]));
      ("article:title_updated",
        VObj (literal (spread prevState ++
          [ ("title", member (body event) "title") ])));
      ("article:content_updated",
        VObj (literal (spread prevState ++
          [ ("content", member (body event) "content") ])));
      ("article:tags_updated",
        VObj (literal (spread prevState ++
          [ ("tags", member (body event) "tags") ])));
      ("article:published",
        VObj (literal (spread prevState ++
          [ ("isPublished", VBool true);
            ("publishedAt", member (body event) "publishedAt") ])));
      ("article:unpublished",
        VObj (literal (spread prevState ++
          [ ("isPublished", VBool false);
            ("publishedAt", VUndefined) ])));
      ("article:archived",
        VObj (literal (spread prevState ++
          [ ("isArchived", VBool true);
            ("archivedReason", member (body event) "reason");
            ("archivedAt", VStr (eventCreatedAt event)) ])));
      ("article:unarchived",
        VObj (literal (spread prevState ++
          [ ("isArchived", VBool false);
            ("archivedReason", VUndefined);
            ("archivedAt", VUndefined) ]))) ]
    prevState.

(** The event names the reducer's [switch] has an arm for. *)
Definition handledEventNames : list string :=
  [ "article:created"; "article:title_updated"; "article:content_updated";
    "article:tags_updated"; "article:published"; "article:unpublished";
    "article:archived"; "article:unarchived" ].

(** Replay: the reducer folded over an event sequence from the
    [undefined] seed. *)
Definition replay (events : list Event) : State :=
  fold_left articleReducer events VUndefined.

(** A state the state validator accepts, held in a well-formed object. *)
Definition validState (s : State) : Prop :=
  check stateDefinition s = true /\
  exists o, s = VObj o /\ NoDup (map fst o).

(** An event some validator of the schema accepts: its name is
    ["article:" ++ key] for a key of the event definition and its body
    passes the check of that key's type. *)
Definition validEvent (event : Event) : bool :=
  existsb (fun '(key, bodyType) =>
             String.eqb (eventName event) ("article:" ++ key) &&
             check bodyType (VObj (body event)))
          eventDefinition.

Section Class.
(** typebox's error reporter ([Validator.Errors]) is external; the time
    values of strings [parseUTC] does not read are the engine's. *)
Variable Errors : forall Value : Type,
    TSchema -> Value -> list TypeboxStandard.TLocalizedValidationError.
Variable parseOther : string -> option Z.

(** Modelled from the spec: the typebox provider (src/typebox0.ts is not
    under src/), built the way the sibling provider src/arktype.ts builds
    its schema: each event type is registered under
    [entityName ++ ":" ++ key] and validates the event envelope, whose
    [eventName] is that literal and whose [body] has the given type; the
    parsers are those of [standard]. *)
Definition typebox (entityName : string) (event : object TSchema)
           (state : TSchema) : Standard.Parsers Event State Event State :=
  Standard.standard
    {| Standard.event :=
         map (fun '(key, bodyType) =>
                let name := entityName ++ ":" ++ key in
                (name,
                 TypeboxStandard.typeboxToStandardSchema
                   {| TypeboxStandard.Check := fun e : Event =>
                        (String.eqb (eventName e) name &&
                         check bodyType (VObj (body e)))%bool;
                      TypeboxStandard.Errors := Errors Event bodyType |}))
             event;
       Standard.state :=
         TypeboxStandard.typeboxToStandardSchema
           {| TypeboxStandard.Check := check state;
              TypeboxStandard.Errors := Errors State state |} |}
    entityName.

(** [defineSchema("article", { schema: typebox({...}),
    initialEventName: "article:created" })] *)
Definition articleSchema : Entity.Schema (object value) State :=
  {| Entity.schema_entityName := "article";
     Entity.initialEventName := "article:created";
     Entity.parsers := typebox "article" eventDefinition stateDefinition |}.

(** [class Article extends Entity(articleSchema, articleReducer)] *)
Definition Article : Type := Entity.Entity (object value) State.

Definition create : Entity.Ambient -> object value -> option string ->
                    Entity.EventOptions -> result Article :=
  Entity.create articleSchema articleReducer VUndefined.

Definition load : string -> State -> bool -> Article :=
  Entity.load articleSchema.

Definition mutation {Args : Type} :=
  @Entity.mutation _ _ articleSchema articleReducer VUndefined Args.

(** [this.state.<name>] *)
Definition field (this : Article) (name : string) : result value :=
  bind (Entity.state this) (fun s => member_of s name).

(** *** Getters *)
Definition isArchived (this : Article) : result value :=
  field this "isArchived".

Definition isPublished (this : Article) : result value :=
  field this "isPublished".

Definition canEdit (this : Article) : result bool :=
  bind (isArchived this) (fun a => Ok (negb (truthy a))).

(** [!this.state.isPublished && !this.state.isArchived] *)
Definition canPublish (this : Article) : result bool :=
  bind (isPublished this) (fun p =>
    if negb (truthy p)
    then bind (isArchived this) (fun a => Ok (negb (truthy a)))
    else Ok false).

(** [this.state.isPublished && !this.state.isArchived], as a truth
    value. *)
Definition canUnpublish (this : Article) : result bool :=
  bind (isPublished this) (fun p =>
    if truthy p
    then bind (isArchived this) (fun a => Ok (negb (truthy a)))
    else Ok false).

(** [get isDraft()]: [!this.state.isPublished && !this.state.isArchived] *)
Definition isDraft (this : Article) : result bool :=
  bind (isPublished this) (fun p =>
    if negb (truthy p)
    then bind (isArchived this) (fun a => Ok (negb (truthy a)))
    else Ok false).

(** *** Business methods

    A method takes the ambient readings of the call and its arguments
    and steps the entity; when it throws, the entity is as the throw left
    it. *)
Definition Method (Args : Type) : Type :=
  Entity.Ambient -> Args -> Article -> Article * result unit.

Definition guarded (guard : result bool) (message : string)
           (this : Article) (k : Article * result unit)
  : Article * result unit :=
  match guard with
  | Throw err => (this, Throw err)
  | Ok false => (this, Throw (Error message))
  | Ok true => k
  end.

Definition updateTitle : Method string :=
  mutation (fun dispatch title this =>
    guarded (canEdit this) "Cannot update title of archived article" this
      (if Nat.eqb (String.length title) 0
       then (this, Throw (Error "Title cannot be empty"))
       else if Nat.ltb 200 (String.length title)
       then (this, Throw (Error "Title cannot exceed 200 characters"))
       else dispatch "article:title_updated"
              [("title", VStr title)] this)).

Definition updateContent : Method string :=
  mutation (fun dispatch content this =>
    guarded (canEdit this) "Cannot update content of archived article" this
      (if Nat.eqb (String.length content) 0
       then (this, Throw (Error "Content cannot be empty"))
       else dispatch "article:content_updated"
              [("content", VStr content)] this)).

Definition updateTags : Method (list string) :=
  mutation (fun dispatch tags this =>
    guarded (canEdit this) "Cannot update tags of archived article" this
      (dispatch "article:tags_updated"
         [("tags", VArr (map VStr tags))] this)).

(** [publish]: the argument is the reading of [new Date()]. *)
Definition publish : Method Date :=
  mutation (fun dispatch today this =>
    match canPublish this with
    | Throw err => (this, Throw err)
    | Ok false =>
        match isArchived this with
        | Throw err => (this, Throw err)
        | Ok a =>
            if truthy a
            then (this, Throw (Error "Cannot publish archived article"))
            else (this, Throw (Error "Article is already published"))
        end
    | Ok true =>
        match toISOString today with
        | Throw err => (this, Throw err)
        | Ok publishedAt =>
            dispatch "article:published"
              [("publishedAt", VStr publishedAt)] this
        end
    end).

Definition unpublish : Method (option string) :=
  mutation (fun dispatch reason this =>
    match canUnpublish this with
    | Throw err => (this, Throw err)
    | Ok false =>
        match isArchived this with
        | Throw err => (this, Throw err)
        | Ok a =>
            if truthy a
            then (this, Throw (Error "Cannot unpublish archived article"))
            else (this, Throw (Error "Article is not published"))
        end
    | Ok true =>
        dispatch "article:unpublished"
          [("reason", match reason with
                      | Some r => VStr r
                      | None => VUndefined
                      end)] this
    end).

Definition archive : Method string :=
  mutation (fun dispatch reason this =>
    match isArchived this with
    | Throw err => (this, Throw err)
    | Ok a =>
        if truthy a
        then (this, Throw (Error "Article is already archived"))
        else dispatch "article:archived" [("reason", VStr reason)] this
    end).

Definition unarchive : Method unit :=
  mutation (fun dispatch _ this =>
    match isArchived this with
    | Throw err => (this, Throw err)
    | Ok a =>
        if negb (truthy a)
        then (this, Throw (Error "Article is not archived"))
        else dispatch "article:unarchived" [] this
    end).

(** *** Persistence: the repository over the prisma adapter *)

(** The snapshot row of an article: its id and state. *)
Definition SnapshotRow : Type := (string * State)%type.
Definition entityToRow (entityId : string) (state : State) : SnapshotRow :=
  (entityId, state).

Definition DB : Type := MemoryPrisma.DB (object value) SnapshotRow.

(** The Prisma client the adapter is given. *)
Definition prisma
  : PrismaAdapter.VentydAdapterOptions (object value) State SnapshotRow DB
      (MemoryPrisma.Query (object value) SnapshotRow) :=
  MemoryPrisma.client entityToRow.

Definition adapter : PrismaAdapter.Adapter (object value) State DB :=
  PrismaAdapter.prismaAdapter parseOther prisma.

(** [createRepository(Article, { adapter })] *)
Definition findOne : string -> DB -> DB * result (option Article) :=
  Entity.findOne articleSchema articleReducer VUndefined DB adapter.

Definition commit : Article -> DB -> Article * DB * result unit :=
  Entity.commit DB adapter.
End Class.

End Article.

(* ################################################################# *)
(** * Well-formed objects *)

Module Objects.
Import JS.

(** No two own properties of a JavaScript object have the same key. *)
Definition wellFormed {A} (o : object A) : Prop := NoDup (map fst o).

(** [next] is [prev] with [fields] written over it, as [{...prev, k1: v1,
    ..., kn: vn}] is: a key of [fields] has the last value written for it,
    every other key has what [prev] has. *)
Definition updated {A} (prev : object A) (fields : list (string * A))
           (next : object A) : Prop :=
  wellFormed next /\
  forall k, own next k = match own (rev fields) k with
                         | Some a => Some a
                         | None => own prev k
                         end.

End Objects.

(* ################################################################# *)
(** * src/arktype.ts *)

Module Arktype.
Import JS StandardSchemaV1.

(** The [context] a provider is called with. *)
Record Context : Type := mkContext {
  entityName : string
}.

Section Provider.
(** [BodyType] stands for arktype's types of event bodies; [type] for
    arktype's [type({eventId: "string", eventCreatedAt: "string",
    entityName: "string", entityId: "string", eventName: `'${eventName}'`,
    body})], which is a Standard Schema. *)
Variables BodyType EventInput StateInput EventType StateType : Type.
Variable type : string -> BodyType -> Schema EventInput EventType.

(** The argument of [arktype]. *)
Record Args : Type := mkArgs {
  event : object BodyType;
  state : Schema StateInput StateType;
  namespaceSeparator : option string
}.

(** The object the provider returns: the schemas and the parsers of
    [standard]. *)
Record Provided : Type := mkProvided {
  provided_event : object (Schema EventInput EventType);
  provided_state : Schema StateInput StateType;
  provided_parsers : Standard.Parsers EventInput StateInput EventType StateType
}.

(** [args.namespaceSeparator ?? ":"] *)
Definition separator (args : Args) : string :=
  match namespaceSeparator args with
  | Some sep => sep
  | None => ":"
  end.

(** [`${context.entityName}${namespaceSeparator}${key}`] *)
Definition namespaced (args : Args) (context : Context) (key : string)
  : string :=
  entityName context ++ separator args ++ key.

(** [Object.entries(args.event).reduce((acc, [key, body]) =>
    ({...acc, [eventName]: arktypeSchema}), {})] *)
Definition eventSchema (args : Args) (context : Context)
  : object (Schema EventInput EventType) :=
  fold_left
    (fun acc '(key, body) =>
       let eventName := namespaced args context key in
       let arktypeSchema := type eventName body in
       literal (Object_entries acc ++ [(eventName, arktypeSchema)]))
    (Object_entries (event args)) [].

Definition arktype (args : Args) (context : Context) : Provided :=
  let eventSchema := eventSchema args context in
  let stateSchema := state args in
  {| provided_event := eventSchema;
     provided_state := stateSchema;
     provided_parsers :=
       Standard.standard
         {| Standard.event := eventSchema; Standard.state := stateSchema |}
         context |}.

End Provider.
Arguments mkArgs {BodyType StateInput StateType}.
Arguments event {BodyType StateInput StateType}.
Arguments state {BodyType StateInput StateType}.
Arguments namespaceSeparator {BodyType StateInput StateType}.
Arguments provided_event {EventInput StateInput EventType StateType}.
Arguments provided_state {EventInput StateInput EventType StateType}.
Arguments provided_parsers {EventInput StateInput EventType StateType}.
Arguments separator {BodyType StateInput StateType}.
Arguments namespaced {BodyType StateInput StateType}.
Arguments eventSchema {BodyType EventInput StateInput EventType StateType}.
Arguments arktype {BodyType EventInput StateInput EventType StateType}.

End Arktype.

(* ################################################################# *)
(** * Concrete data for the scenarios *)

Module Scenario.
Import JS JSDate Types.

(** An error reporter that reports nothing and an engine that reads no
    other date strings: neither is consulted on the paths below. *)
Definition noErrors (Value : Type) (t : TypeBox.TSchema) (v : Value)
  : list TypeboxStandard.TLocalizedValidationError := [].
Definition strictEngine (s : string) : option Z := None.

Definition initialBody : object value :=
  [ ("title", VStr "T"); ("content", VStr "C"); ("author", VStr "A");
    ("tags", VArr []) ].

Definition created : Article.Event :=
  {| eventId := "c4b7e1d2-event";
     eventCreatedAt := "2024-01-15T10:30:00.000Z";
     entityName := "article";
     entityId := "article-1";
     eventName := "article:created";
     body := initialBody |}.

Definition titleUpdated : Article.Event :=
  {| eventId := "2f9a0c35-event";
     eventCreatedAt := "2024-01-15T10:31:00.000Z";
     entityName := "article";
     entityId := "article-1";
     eventName := "article:title_updated";
     body := [ ("title", VStr "T2") ] |}.

(** The state the scenario of the specification names. *)
Definition fourFields : value :=
  VObj [ ("title", VStr "T2"); ("content", VStr "C"); ("author", VStr "A");
         ("tags", VArr []) ].

(** The state the reducer builds. *)
Definition nineFields : value :=
  VObj [ ("title", VStr "T2"); ("content", VStr "C"); ("author", VStr "A");
         ("tags", VArr []); ("isPublished", VBool false);
         ("publishedAt", VUndefined); ("isArchived", VBool false);
         ("archivedReason", VUndefined); ("archivedAt", VUndefined) ].

(** Three validators over raw values: one accepts its input as it is, one
    rejects it with a single issue, one answers with a promise. *)
Definition accepting : StandardSchemaV1.Schema value value :=
  {| StandardSchemaV1.validate := fun input =>
       StandardSchemaV1.Sync (StandardSchemaV1.Success input) |}.

Definition rejecting : StandardSchemaV1.Schema value value :=
  {| StandardSchemaV1.validate := fun input =>
       StandardSchemaV1.Sync (StandardSchemaV1.Failure
         [ {| StandardSchemaV1.message := "Expected string";
              StandardSchemaV1.path := None |} ]) |}.

Definition asynchronous : StandardSchemaV1.Schema value value :=
  {| StandardSchemaV1.validate := fun input =>
       StandardSchemaV1.Promise (StandardSchemaV1.Success input) |}.

(** Providers over these validators. *)
Definition userEvents : Standard.Args value value value value :=
  {| Standard.event :=
       [ ("user:created", rejecting); ("user:renamed", accepting) ];
     Standard.state := accepting |}.

Definition asyncOnly : Standard.Args value value value value :=
  {| Standard.event := [ ("user:created", asynchronous) ];
     Standard.state := asynchronous |}.

Definition asyncThenSync : Standard.Args value value value value :=
  {| Standard.event :=
       [ ("user:created", asynchronous); ("user:renamed", accepting) ];
     Standard.state := accepting |}.

(** A provider whose schemas are made by [typeboxToStandardSchema]. *)
Definition flagged : TypeboxStandard.Validator value :=
  {| TypeboxStandard.Check := TypeBox.check TypeBox.TBoolean;
     TypeboxStandard.Errors := fun _ =>
       [ {| TypeboxStandard.instancePath := "";
            TypeboxStandard.message := "must be boolean" |} ] |}.

Definition flagEvents : Standard.Args value value value value :=
  {| Standard.event :=
       [ ("flag:raised", TypeboxStandard.typeboxToStandardSchema flagged) ];
     Standard.state := TypeboxStandard.typeboxToStandardSchema flagged |}.

(** An arktype-like [type] of the event envelope: the input is an object
    whose [eventName] is the given name and whose [body] the body type
    accepts. *)
Definition envelope (eventName : string)
           (body : StandardSchemaV1.Schema value value)
  : StandardSchemaV1.Schema value value :=
  {| StandardSchemaV1.validate := fun input =>
       match input with
       | VObj o =>
           if equals (member o "eventName") (VStr eventName)
           then match StandardSchemaV1.validate body (member o "body") with
                | StandardSchemaV1.Sync (StandardSchemaV1.Success _) =>
                    StandardSchemaV1.Sync (StandardSchemaV1.Success input)
                | other => other
                end
           else StandardSchemaV1.Sync (StandardSchemaV1.Failure
                  [ {| StandardSchemaV1.message := "eventName is not expected";
                       StandardSchemaV1.path :=
                         Some [ StandardSchemaV1.Key
                                  (StandardSchemaV1.KString "eventName") ] |} ])
       | _ =>
           StandardSchemaV1.Sync (StandardSchemaV1.Failure
             [ {| StandardSchemaV1.message := "must be an object";
                  StandardSchemaV1.path := None |} ])
       end |}.

Definition orderEvents
  : Arktype.Args (StandardSchemaV1.Schema value value) value value :=
  {| Arktype.event := [ ("placed", accepting); ("cancelled", rejecting) ];
     Arktype.state := accepting;
     Arktype.namespaceSeparator := None |}.

(** A validator for [{title: string, tags: string[]}] with an error
    reporter that blames the first tag and the title. *)
Definition titleAndTags : TypeboxStandard.Validator value :=
  {| TypeboxStandard.Check :=
       TypeBox.check
         (TypeBox.TObject
            [ ("title", TypeBox.required (TypeBox.TString (Some 1) None));
              ("tags", TypeBox.required
                         (TypeBox.TArray (TypeBox.TString None None))) ]);
     TypeboxStandard.Errors := fun _ =>
       [ {| TypeboxStandard.instancePath := "/tags/0";
            TypeboxStandard.message := "must be string" |};
         {| TypeboxStandard.instancePath := "/title";
            TypeboxStandard.message :=
              "must not have fewer than 1 characters" |} ] |}.

Definition untitled : value :=
  VObj [ ("title", VStr ""); ("tags", VArr [VBool true]) ].

(** The event table after the two events were committed. *)
Definition twoEvents : Article.DB :=
  {| MemoryPrisma.events :=
       map (PrismaAdapter.eventToRow strictEngine) [created; titleUpdated];
     MemoryPrisma.snapshots := [ ("article-1", ("article-1", nineFields)) ] |}.

(** A client whose [findMany] answers the matching rows in the order of
    the table's primary key, [eventId], as a database may when it is asked
    for no order. *)
Fixpoint insertById (row : PrismaAdapter.BaseEventTypeRow (object value))
         (rows : list (PrismaAdapter.BaseEventTypeRow (object value)))
  : list (PrismaAdapter.BaseEventTypeRow (object value)) :=
  match rows with
  | [] => [row]
  | r :: rows' =>
      if String.leb (PrismaAdapter.eventId row) (PrismaAdapter.eventId r)
      then row :: rows
      else r :: insertById row rows'
  end.

Definition byPrimaryKey
  : PrismaAdapter.VentydAdapterOptions (object value) Article.State
      Article.SnapshotRow Article.DB
      (MemoryPrisma.Query (object value) Article.SnapshotRow) :=
  {| PrismaAdapter.prisma_transaction := MemoryPrisma.transaction;
     PrismaAdapter.event_findMany := fun w db =>
       (db, Ok (fold_right insertById []
                  (filter (MemoryPrisma.matches w)
                          (MemoryPrisma.events db))));
     PrismaAdapter.event_createMany := MemoryPrisma.CreateMany;
     PrismaAdapter.snapshot_upsert := MemoryPrisma.Upsert;
     PrismaAdapter.entityToRow := Article.entityToRow |}.

(** An engine that also reads the date-only form of one day. *)
Definition lenientEngine (s : string) : option Z :=
  if String.eqb s "2024-01-15" then Some 1705276800000%Z else None.

(** An archived article's state. *)
Definition archivedState : value :=
  VObj [ ("title", VStr "T2"); ("content", VStr "C"); ("author", VStr "A");
         ("tags", VArr []); ("isPublished", VBool false);
         ("publishedAt", VUndefined); ("isArchived", VBool true);
         ("archivedReason", VStr "Outdated");
         ("archivedAt", VStr "2024-01-15T10:32:00.000Z") ].

(** The same article loaded from its state: readonly by default, mutable
    with [UNSAFE_mutable]. *)
Definition archivedReadonly : Article.Article :=
  Article.load noErrors "article-1" archivedState false.

Definition archivedMutable : Article.Article :=
  Article.load noErrors "article-1" archivedState true.

(** A published article and a draft, both mutable. *)
Definition publishedFields : object value :=
  [ ("title", VStr "T2"); ("content", VStr "C"); ("author", VStr "A");
    ("tags", VArr []); ("isPublished", VBool true);
    ("publishedAt", VStr "2024-01-15T10:32:00.000Z");
    ("isArchived", VBool false); ("archivedReason", VUndefined);
    ("archivedAt", VUndefined) ].

Definition publishedMutable : Article.Article :=
  Article.load noErrors "article-1" (VObj publishedFields) true.

Definition draftFields : object value :=
  [ ("title", VStr "T2"); ("content", VStr "C"); ("author", VStr "A");
    ("tags", VArr []); ("isPublished", VBool false);
    ("publishedAt", VUndefined); ("isArchived", VBool false);
    ("archivedReason", VUndefined); ("archivedAt", VUndefined) ].

Definition draftMutable : Article.Article :=
  Article.load noErrors "article-1" (VObj draftFields) true.

(** The ambient readings of the two calls that build events. *)
Definition atCreate : Entity.Ambient :=
  {| Entity.randomUUID := fun n =>
       match n with O => "article-1" | _ => "c4b7e1d2-event" end;
     Entity.now := Some 1705314600000%Z |}.

Definition atUpdate : Entity.Ambient :=
  {| Entity.randomUUID := fun _ => "2f9a0c35-event";
     Entity.now := Some 1705314660000%Z |}.

Section Run.
Variable Errors : forall Value : Type,
    TypeBox.TSchema -> Value -> list TypeboxStandard.TLocalizedValidationError.
(** The database and the adapter of the repository. *)
Variable DB : Type.
Variable adapter : PrismaAdapter.Adapter (object value) Article.State DB.

(** create, [updateTitle("T2")], commit, [findOne], on the database [db]:
    the state of the entity found and the events the adapter returns for
    it. *)
Definition createUpdateCommitFind (db : DB)
  : result (option value * list Article.Event) :=
  bind (Article.create Errors atCreate initialBody None Entity.noOptions)
    (fun article =>
  let '(article, updated) :=
    Article.updateTitle Errors atUpdate "T2" article in
  bind updated (fun _ =>
  let '(article, db, committed) :=
    Entity.commit DB adapter article db in
  bind committed (fun _ =>
  let '(db, found) :=
    Entity.findOne (Article.articleSchema Errors) Article.articleReducer
      VUndefined DB adapter (Entity.entityId article) db in
  bind found (fun found =>
  let '(_, events) :=
    PrismaAdapter.getEventsByEntityId adapter
      "article" (Entity.entityId article) db in
  bind events (fun events =>
  Ok (match found with
      | Some a => Entity.state_ a
      | None => None
      end, events)))))).
End Run.

End Scenario.

(* ################################################################# *)
(** * Properties *)

Import JS Types.

(** ** The reducer *)

Lemma switch_default {A} (d : string) (cases : list (string * A)) (dflt : A) :
  ~ In d (map fst cases) -> switch d cases dflt = dflt.
Proof.
  induction cases as [|[l a] cases IH]; simpl; intros Hd.
  - reflexivity.
  - destruct (String.eqb_spec d l) as [->|_].
    + exfalso. apply Hd. now left.
    + apply IH. intros Hin. apply Hd. now right.
Qed.

(** C2: for every state [s] and every event [e] whose [eventName] is none
    of the names the reducer's [switch] handles, [articleReducer s e] is
    [s]: the event is a no-op and no error is raised (the reducer is a
    total function). *)
Theorem articleReducer_unknown_event (s : Article.State) (e : Article.Event) :
  ~ In (eventName e) Article.handledEventNames ->
  Article.articleReducer s e = s.
Proof.
  intros Hname. unfold Article.articleReducer.
  apply switch_default. exact Hname.
Qed.

Lemma articleReducer_unknown_event_witness :
  ~ In (eventName
          {| eventId := "event-9"; eventCreatedAt := "2030-01-01T00:00:00.000Z";
             entityName := "article"; entityId := "article-1";
             eventName := "article:pinned"; body := [("by", VStr "A")] |})
       Article.handledEventNames /\
  Article.articleReducer Scenario.nineFields
    {| eventId := "event-9"; eventCreatedAt := "2030-01-01T00:00:00.000Z";
       entityName := "article"; entityId := "article-1";
       eventName := "article:pinned"; body := [("by", VStr "A")] |}
  = Scenario.nineFields.
Proof.
  assert (H : ~ In "article:pinned" Article.handledEventNames).
  { simpl. intros Hin.
    repeat (destruct Hin as [Hin|Hin]; [discriminate Hin|]). exact Hin. }
  split; [exact H | apply articleReducer_unknown_event; exact H].
Defined.

(** Replaying a creation followed by a title update, whatever the payloads
    and the envelopes: the title is the updated one, the other fields are
    those of the creation, and the flags are the ones [article:created]
    sets. *)
Lemma replay_created_title_updated
      (title content author tags title2 : value)
      (id1 at1 id2 at2 name id : string) :
  Article.replay
    [ {| eventId := id1; eventCreatedAt := at1; entityName := name;
         entityId := id; eventName := "article:created";
         body := [ ("title", title); ("content", content);
                   ("author", author); ("tags", tags) ] |};
      {| eventId := id2; eventCreatedAt := at2; entityName := name;
         entityId := id; eventName := "article:title_updated";
         body := [ ("title", title2) ] |} ]
  = VObj [ ("title", title2); ("content", content); ("author", author);
           ("tags", tags); ("isPublished", VBool false);
           ("publishedAt", VUndefined); ("isArchived", VBool false);
           ("archivedReason", VUndefined); ("archivedAt", VUndefined) ].
Proof.
  unfold Article.replay. simpl fold_left.
  unfold Article.articleReducer at 2. simpl switch.
  unfold Article.articleReducer. simpl switch.
  reflexivity.
Qed.

(** C3, as stated, fails: the state reached by the two events is not the
    four-field object [{title, content, author, tags}], in whatever order
    the properties are compared; it also has [isPublished: false] (and
    [isArchived: false]), which the four-field object lacks. *)
Lemma replay_state_is_not_four_fields :
  Article.replay [Scenario.created; Scenario.titleUpdated]
    <> Scenario.fourFields /\
  equals (Article.replay [Scenario.created; Scenario.titleUpdated])
         Scenario.fourFields = false /\
  member_of (Article.replay [Scenario.created; Scenario.titleUpdated])
            "isPublished" = Ok (VBool false) /\
  member_of Scenario.fourFields "isPublished" = Ok VUndefined.
Proof.
  assert (Hstate :
            Article.replay [Scenario.created; Scenario.titleUpdated]
            = Scenario.nineFields)
    by apply replay_created_title_updated.
  rewrite Hstate. split; [|split; [|split]].
  - unfold Scenario.nineFields, Scenario.fourFields. intros Heq.
    injection Heq as Heq. discriminate Heq.
  - reflexivity.
  - reflexivity.
  - reflexivity.
Qed.

(** ** Business rules of the article *)

Section ArticleRules.
Variable Errors : forall Value : Type,
    TypeBox.TSchema -> Value -> list TypeboxStandard.TLocalizedValidationError.

Lemma isArchived_true_inv (this : Article.Article) :
  Article.isArchived this = Ok (VBool true) ->
  exists o, Entity.state_ this = Some (VObj o) /\
            member o "isArchived" = VBool true.
Proof.
  unfold Article.isArchived, Article.field, Entity.state.
  destruct (Entity.state_ this) as [s|]; simpl; [|discriminate].
  destruct s; simpl; try discriminate.
  intros H. injection H as H. eauto.
Qed.

Lemma isPublished_of_object (this : Article.Article) (o : object value) :
  Entity.state_ this = Some (VObj o) ->
  Article.isPublished this = Ok (member o "isPublished").
Proof.
  intros Hs. unfold Article.isPublished, Article.field, Entity.state.
  rewrite Hs. reflexivity.
Qed.

Lemma canEdit_archived (this : Article.Article) :
  Article.isArchived this = Ok (VBool true) ->
  Article.canEdit this = Ok false.
Proof. intros H. unfold Article.canEdit. rewrite H. reflexivity. Qed.

Lemma canPublish_archived (this : Article.Article) :
  Article.isArchived this = Ok (VBool true) ->
  Article.canPublish this = Ok false.
Proof.
  intros H. destruct (isArchived_true_inv this H) as (o & Hs & _).
  unfold Article.canPublish.
  rewrite (isPublished_of_object this o Hs), H. simpl.
  destruct (truthy (member o "isPublished")); reflexivity.
Qed.

Lemma canUnpublish_archived (this : Article.Article) :
  Article.isArchived this = Ok (VBool true) ->
  Article.canUnpublish this = Ok false.
Proof.
  intros H. destruct (isArchived_true_inv this H) as (o & Hs & _).
  unfold Article.canUnpublish.
  rewrite (isPublished_of_object this o Hs), H. simpl.
  destruct (truthy (member o "isPublished")); reflexivity.
Qed.

(** C8, amended: for every mutable article entity whose state has
    [isArchived = true], each of [updateTitle], [updateContent],
    [updateTags], [publish] and [unpublish] throws its own business-rule
    error, which is not the [ReadonlyEntityError], before anything is
    dispatched: the entity (state and queued events) is returned
    unchanged. *)
Theorem archived_article_rejects_mutations
        (amb : Entity.Ambient) (this : Article.Article) :
  Entity.readonly this = false ->
  Article.isArchived this = Ok (VBool true) ->
  (forall title,
      Article.updateTitle Errors amb title this
      = (this, Throw (Error "Cannot update title of archived article"))) /\
  (forall content,
      Article.updateContent Errors amb content this
      = (this, Throw (Error "Cannot update content of archived article"))) /\
  (forall tags,
      Article.updateTags Errors amb tags this
      = (this, Throw (Error "Cannot update tags of archived article"))) /\
  (forall today,
      Article.publish Errors amb today this
      = (this, Throw (Error "Cannot publish archived article"))) /\
  (forall reason,
      Article.unpublish Errors amb reason this
      = (this, Throw (Error "Cannot unpublish archived article"))) /\
  (forall message, Error message <> ReadonlyEntityError).
Proof.
  intros Hmutable Harchived.
  pose proof (canEdit_archived this Harchived) as Hedit.
  pose proof (canPublish_archived this Harchived) as Hpublish.
  pose proof (canUnpublish_archived this Harchived) as Hunpublish.
  repeat split; intros.
  - unfold Article.updateTitle, Article.mutation, Entity.mutation.
    rewrite Hmutable. unfold Article.guarded. rewrite Hedit. reflexivity.
  - unfold Article.updateContent, Article.mutation, Entity.mutation.
    rewrite Hmutable. unfold Article.guarded. rewrite Hedit. reflexivity.
  - unfold Article.updateTags, Article.mutation, Entity.mutation.
    rewrite Hmutable. unfold Article.guarded. rewrite Hedit. reflexivity.
  - unfold Article.publish, Article.mutation, Entity.mutation.
    rewrite Hmutable, Hpublish, Harchived. reflexivity.
  - unfold Article.unpublish, Article.mutation, Entity.mutation.
    rewrite Hmutable, Hunpublish, Harchived. reflexivity.
  - discriminate.
Qed.

End ArticleRules.

Lemma archived_article_rejects_mutations_witness :
  Entity.readonly Scenario.archivedMutable = false /\
  Article.isArchived Scenario.archivedMutable = Ok (VBool true) /\
  Article.updateTitle Scenario.noErrors Scenario.atUpdate "New title"
    Scenario.archivedMutable
  = (Scenario.archivedMutable,
     Throw (Error "Cannot update title of archived article")).
Proof.
  assert (Hm : Entity.readonly Scenario.archivedMutable = false)
    by reflexivity.
  assert (Ha : Article.isArchived Scenario.archivedMutable = Ok (VBool true))
    by reflexivity.
  split; [exact Hm | split; [exact Ha |]].
  exact (proj1 (archived_article_rejects_mutations Scenario.noErrors
                  Scenario.atUpdate Scenario.archivedMutable Hm Ha)
               "New title").
Defined.

(** C8, as stated, fails: an article whose state has [isArchived = true]
    and which was loaded readonly rejects [updateTitle] with the
    [ReadonlyEntityError], not with the business-rule error. *)
Lemma readonly_archived_article_throws_readonly_error :
  Article.isArchived Scenario.archivedReadonly = Ok (VBool true) /\
  Article.updateTitle Scenario.noErrors Scenario.atUpdate "New title"
    Scenario.archivedReadonly
  = (Scenario.archivedReadonly, Throw ReadonlyEntityError) /\
  ~ (exists message,
        Article.updateTitle Scenario.noErrors Scenario.atUpdate "New title"
          Scenario.archivedReadonly
        = (Scenario.archivedReadonly, Throw (Error message))).
Proof.
  split; [reflexivity | split; [reflexivity |]].
  intros [message H]. discriminate H.
Qed.

(** ** Enumeration of object properties *)

Lemma insert_index_perm {A} (n : N) (kv : string * A) l :
  Permutation (insert_index n kv l) ((n, kv) :: l).
Proof.
  induction l as [|[m kv'] l IH]; simpl.
  - apply Permutation_refl.
  - destruct (n <? m)%N.
    + apply Permutation_refl.
    + eapply perm_trans; [apply perm_skip, IH | apply perm_swap].
Qed.

(** Enumeration visits every own property exactly once. *)
Lemma Object_entries_perm {A} (o : object A) :
  Permutation (Object_entries o) o.
Proof.
  unfold Object_entries.
  induction o as [|kv o IH]; simpl.
  - apply Permutation_refl.
  - destruct (array_index (fst kv)) as [n|].
    + eapply perm_trans.
      * apply Permutation_app_tail, Permutation_map, insert_index_perm.
      * simpl. apply perm_skip, IH.
    + apply Permutation_sym.
      eapply perm_trans; [|apply Permutation_middle].
      apply perm_skip, Permutation_sym, IH.
Qed.

Lemma Object_keys_own {A} (o : object A) (k : string) :
  In k (Object_keys o) <-> own o k <> None.
Proof.
  unfold Object_keys.
  assert (Hperm : forall k, In k (map fst (Object_entries o)) <->
                            In k (map fst o)).
  { intros k'. split; apply Permutation_in, Permutation_map.
    - apply Object_entries_perm.
    - apply Permutation_sym, Object_entries_perm. }
  rewrite Hperm. clear Hperm.
  induction o as [|[k' a] o IH]; simpl.
  - split; [intros [] | intros H; now apply H].
  - destruct (String.eqb_spec k' k) as [->|Hne].
    + split; [discriminate | now left].
    + rewrite <- IH. split; [intros [H|H]; [contradiction | exact H]
                            | now right].
Qed.

(** ** [standard]: parsing by name *)

Section ByName.
Variables EventInput StateInput EventType StateType Context : Type.
Variable args : Standard.Args EventInput StateInput EventType StateType.
Variable context : Context.

(** A registered name: the input goes to that event's validator, and what
    the validator says decides the outcome. *)
Lemma parseEventByName_registered name schema input :
  own (Standard.event args) name = Some schema ->
  Standard.parseEventByName (Standard.standard args context) name input
  = Standard.standardValidate schema input (Some name).
Proof.
  intros Hown. simpl. unfold get. rewrite Hown. reflexivity.
Qed.

Lemma parseEventByName_registered_success name schema input value :
  own (Standard.event args) name = Some schema ->
  StandardSchemaV1.validate schema input
  = StandardSchemaV1.Sync (StandardSchemaV1.Success value) ->
  Standard.parseEventByName (Standard.standard args context) name input
  = Ok value.
Proof.
  intros Hown Hvalid. rewrite (parseEventByName_registered _ _ _ Hown).
  unfold Standard.standardValidate. rewrite Hvalid. reflexivity.
Qed.

(** A name that is neither registered nor a property of [Object.prototype]:
    the error names it and lists every registered name. *)
Lemma parseEventByName_unregistered name input :
  own (Standard.event args) name = None ->
  inherited name = false ->
  Standard.parseEventByName (Standard.standard args context) name input
  = Throw (Error
      ("Event name " ++ dquote ++ name ++ dquote ++
       " not found. Available events: " ++
       join ", " (Object_keys (Standard.event args)))) /\
  (forall registered,
      own (Standard.event args) registered <> None ->
      In registered (Object_keys (Standard.event args))).
Proof.
  intros Hown Hproto. split.
  - simpl. unfold get. rewrite Hown, Hproto. reflexivity.
  - intros registered. apply Object_keys_own.
Qed.

(** A name that is not registered but that [Object.prototype] has: the
    lookup finds the inherited built-in, and the call ends in a
    [TypeError]. *)
Lemma parseEventByName_inherited name input :
  own (Standard.event args) name = None ->
  inherited name = true ->
  Standard.parseEventByName (Standard.standard args context) name input
  = Throw (TypeError
      "Cannot read properties of undefined (reading 'validate')").
Proof.
  intros Hown Hproto. simpl. unfold get. rewrite Hown, Hproto. reflexivity.
Qed.

End ByName.

(** C5 at the failing input: with the event map
    [{"user:created": ..., "user:renamed": ...}], the name ["constructor"]
    is not registered, yet [parseEventByName("constructor", input)] does
    not fail with the error that lists the available names: it fails with a
    [TypeError]. *)
Theorem parseEventByName_constructor (input : value) :
  own (Standard.event Scenario.userEvents) "constructor" = None /\
  Standard.parseEventByName (Standard.standard Scenario.userEvents tt)
    "constructor" input
  = Throw (TypeError
      "Cannot read properties of undefined (reading 'validate')") /\
  Standard.parseEventByName (Standard.standard Scenario.userEvents tt)
    "user:deleted" input
  = Throw (Error
      ("Event name " ++ dquote ++ "user:deleted" ++ dquote ++
       " not found. Available events: user:created, user:renamed")).
Proof.
  split; [reflexivity | split].
  - apply parseEventByName_inherited; reflexivity.
  - apply parseEventByName_unregistered; reflexivity.
Qed.

(** ** [standard]: parsing without a name *)

Section AnyEvent.
Variables EventInput StateInput EventType StateType Context : Type.
Variable args : Standard.Args EventInput StateInput EventType StateType.
Variable context : Context.

Lemma parseEvent_loop_skips
      (before rest : list (StandardSchemaV1.Schema EventInput EventType))
      (input : EventInput) :
  (forall s, In s before -> Standard.fails s input) ->
  Standard.parseEvent_loop (before ++ rest)%list input
  = Standard.parseEvent_loop rest input.
Proof.
  induction before as [|s before IH]; simpl; intros Hfail.
  - reflexivity.
  - destruct (Hfail s (or_introl eq_refl)) as [err Herr].
    rewrite Herr. simpl. apply IH. intros s' Hin. apply Hfail. now right.
Qed.

Lemma parseEvent_loop_total
      (schemas : list (StandardSchemaV1.Schema EventInput EventType))
      (input : EventInput) :
  (exists before schema after value,
      schemas = (before ++ schema :: after)%list /\
      (forall s, In s before -> Standard.fails s input) /\
      Standard.standardValidate schema input None = Ok value /\
      Standard.parseEvent_loop schemas input = Ok value) \/
  ((forall s, In s schemas -> Standard.fails s input) /\
   Standard.parseEvent_loop schemas input = Throw (Error "Validation failed")).
Proof.
  induction schemas as [|s schemas IH]; simpl.
  - right. split; [intros s [] | reflexivity].
  - destruct (Standard.standardValidate s input None) as [value|err] eqn:Hs.
    + left. exists [], s, schemas, value. simpl.
      repeat split; [intros s' [] | exact Hs].
    + simpl.
      destruct IH as [(before & schema & after & value & -> & Hb & Hv & Hr)
                     | [Hall Hr]].
      * left. exists (s :: before), schema, after, value.
        repeat split; try assumption.
        intros s' [<-|Hin]; [exists err; exact Hs | now apply Hb].
      * right. split; [|exact Hr].
        intros s' [<-|Hin]; [exists err; exact Hs | now apply Hall].
Qed.

(** C6: [parseEvent] tries the event validators in the order of the event
    map; it returns the value of the first one that succeeds, and when
    every one fails it throws the generic [Error("Validation failed")],
    which names no event.  One of the two always happens. *)
Theorem parseEvent_first_success (input : EventInput) :
  (forall before schema after value,
      Object_values (Standard.event args) = (before ++ schema :: after)%list ->
      (forall s, In s before -> Standard.fails s input) ->
      Standard.standardValidate schema input None = Ok value ->
      Standard.parseEvent (Standard.standard args context) input = Ok value) /\
  ((forall s, In s (Object_values (Standard.event args)) -> Standard.fails s input) ->
   Standard.parseEvent (Standard.standard args context) input
   = Throw (Error "Validation failed")) /\
  ((exists value,
       Standard.parseEvent (Standard.standard args context) input = Ok value)
   \/ Standard.parseEvent (Standard.standard args context) input
      = Throw (Error "Validation failed")).
Proof.
  simpl. repeat split.
  - intros before schema after value Hvalues Hbefore Hschema.
    rewrite Hvalues, (parseEvent_loop_skips before _ input Hbefore).
    simpl. rewrite Hschema. reflexivity.
  - intros Hall.
    destruct (parseEvent_loop_total (Object_values (Standard.event args)) input)
      as [(before & schema & after & value & Heq & _ & Hv & _) | [_ Hr]];
      [|exact Hr].
    destruct (Hall schema) as [err Herr].
    + rewrite Heq. apply in_or_app. right. now left.
    + rewrite Herr in Hv. discriminate Hv.
  - destruct (parseEvent_loop_total (Object_values (Standard.event args)) input)
      as [(_ & _ & _ & value & _ & _ & _ & Hr) | [_ Hr]].
    + left. exists value. exact Hr.
    + right. exact Hr.
Qed.

(** ** [standard]: validators that answer with a promise *)

Lemma standardValidate_promise {Input Output}
      (schema : StandardSchemaV1.Schema Input Output) input name :
  StandardSchemaV1.instanceofPromise (StandardSchemaV1.validate schema input)
  = true ->
  Standard.standardValidate schema input name
  = Throw (Error "Promise validation result is not supported").
Proof.
  unfold Standard.standardValidate.
  destruct (StandardSchemaV1.validate schema input); simpl;
    [discriminate | reflexivity].
Qed.

Lemma parseEvent_loop_drops_promises
      (schemas : list (StandardSchemaV1.Schema EventInput EventType))
      (input : EventInput) :
  Standard.parseEvent_loop schemas input
  = Standard.parseEvent_loop
      (filter (fun s => negb (StandardSchemaV1.instanceofPromise
                                (StandardSchemaV1.validate s input)))
              schemas) input.
Proof.
  induction schemas as [|s schemas IH]; simpl.
  - reflexivity.
  - destruct (StandardSchemaV1.instanceofPromise
                (StandardSchemaV1.validate s input)) eqn:Hp; simpl.
    + rewrite (standardValidate_promise s input None Hp). simpl. exact IH.
    + rewrite IH. reflexivity.
Qed.

(** C10, amended: for a schema whose [validate] answers with a promise,
    [parseEventByName] (on the name it is registered under) and
    [parseState] throw [Error("Promise validation result is not
    supported")]; [parseEvent] catches that error as it catches every
    validation failure, so it goes on as if the schema were not in the
    event map: it returns the first success of the other validators or
    throws the generic [Error("Validation failed")].  No promise is awaited
    and no parser returns one. *)
Theorem promise_results_are_not_awaited :
  (forall name schema input,
      own (Standard.event args) name = Some schema ->
      StandardSchemaV1.instanceofPromise
        (StandardSchemaV1.validate schema input) = true ->
      Standard.parseEventByName (Standard.standard args context) name input
      = Throw (Error "Promise validation result is not supported")) /\
  (forall input,
      StandardSchemaV1.instanceofPromise
        (StandardSchemaV1.validate (Standard.state args) input) = true ->
      Standard.parseState (Standard.standard args context) input
      = Throw (Error "Promise validation result is not supported")) /\
  (forall input,
      Standard.parseEvent (Standard.standard args context) input
      = Standard.parseEvent_loop
          (filter (fun s => negb (StandardSchemaV1.instanceofPromise
                                    (StandardSchemaV1.validate s input)))
                  (Object_values (Standard.event args))) input) /\
  (forall input,
      (forall s, In s (Object_values (Standard.event args)) ->
                 StandardSchemaV1.instanceofPromise
                   (StandardSchemaV1.validate s input) = true) ->
      Standard.parseEvent (Standard.standard args context) input
      = Throw (Error "Validation failed")).
Proof.
  repeat split.
  - intros name schema input Hown Hpromise.
    rewrite (parseEventByName_registered _ _ _ _ _ args context _ _ _ Hown).
    apply standardValidate_promise, Hpromise.
  - intros input Hpromise. simpl.
    apply standardValidate_promise, Hpromise.
  - intros input. simpl. apply parseEvent_loop_drops_promises.
  - intros input Hall. simpl.
    destruct (parseEvent_loop_total (Object_values (Standard.event args)) input)
      as [(before & schema & after & value & Heq & _ & Hv & _) | [_ Hr]];
      [|exact Hr].
    rewrite (standardValidate_promise schema input None) in Hv;
      [discriminate Hv|].
    apply Hall. rewrite Heq.
    apply in_or_app. right. now left.
Qed.

End AnyEvent.

Lemma parseEvent_first_success_witness :
  Object_values (Standard.event Scenario.userEvents)
  = ([Scenario.rejecting] ++ Scenario.accepting :: [])%list /\
  (forall s, In s [Scenario.rejecting] -> Standard.fails s (VStr "x")) /\
  Standard.standardValidate Scenario.accepting (VStr "x") None
  = Ok (VStr "x") /\
  Standard.parseEvent (Standard.standard Scenario.userEvents tt) (VStr "x")
  = Ok (VStr "x").
Proof.
  assert (Hvalues : Object_values (Standard.event Scenario.userEvents)
                    = ([Scenario.rejecting] ++ Scenario.accepting :: [])%list)
    by reflexivity.
  assert (Hbefore : forall s, In s [Scenario.rejecting] ->
                              Standard.fails s (VStr "x")).
  { intros s [<-|[]]. eexists. reflexivity. }
  assert (Hschema : Standard.standardValidate Scenario.accepting (VStr "x")
                      None = Ok (VStr "x"))
    by reflexivity.
  split; [exact Hvalues | split; [exact Hbefore | split; [exact Hschema |]]].
  exact (proj1 (parseEvent_first_success _ _ _ _ _ Scenario.userEvents tt
                  (VStr "x"))
               [Scenario.rejecting] Scenario.accepting [] (VStr "x")
               Hvalues Hbefore Hschema).
Defined.

Lemma promise_results_are_not_awaited_witness :
  own (Standard.event Scenario.asyncOnly) "user:created"
  = Some Scenario.asynchronous /\
  StandardSchemaV1.instanceofPromise
    (StandardSchemaV1.validate Scenario.asynchronous (VStr "x")) = true /\
  Standard.parseEventByName (Standard.standard Scenario.asyncOnly tt)
    "user:created" (VStr "x")
  = Throw (Error "Promise validation result is not supported").
Proof.
  assert (Hown : own (Standard.event Scenario.asyncOnly) "user:created"
                 = Some Scenario.asynchronous) by reflexivity.
  assert (Hpromise : StandardSchemaV1.instanceofPromise
                       (StandardSchemaV1.validate Scenario.asynchronous
                          (VStr "x")) = true) by reflexivity.
  split; [exact Hown | split; [exact Hpromise |]].
  exact (proj1 (promise_results_are_not_awaited _ _ _ _ _
                  Scenario.asyncOnly tt)
               "user:created" Scenario.asynchronous (VStr "x")
               Hown Hpromise).
Defined.

(** C10, as stated, fails for [parseEvent]: with a schema whose [validate]
    answers with a promise, [parseEvent] does not throw [Error("Promise
    validation result is not supported")]: alone in the event map it makes
    [parseEvent] throw [Error("Validation failed")], and followed by a
    schema that accepts the input it makes [parseEvent] return that
    schema's value without any error. *)
Lemma parseEvent_swallows_promise_error :
  StandardSchemaV1.instanceofPromise
    (StandardSchemaV1.validate Scenario.asynchronous (VStr "x")) = true /\
  Standard.parseEvent (Standard.standard Scenario.asyncOnly tt) (VStr "x")
  = Throw (Error "Validation failed") /\
  Standard.parseEvent (Standard.standard Scenario.asyncOnly tt) (VStr "x")
  <> Throw (Error "Promise validation result is not supported") /\
  Standard.parseEvent (Standard.standard Scenario.asyncThenSync tt) (VStr "x")
  = Ok (VStr "x").
Proof.
  repeat split. simpl. discriminate.
Qed.

(** ** typebox: issues and their paths *)

Import TypeboxStandard.

Lemma replaceAll2_other a b r c s :
  Ascii.eqb c a = false ->
  replaceAll2 a b r (String c s) = String c (replaceAll2 a b r s).
Proof.
  intros Hc. destruct s as [|d s]; cbn [replaceAll2].
  - reflexivity.
  - rewrite Hc. reflexivity.
Qed.

Lemma replaceAll2_match a b r s :
  replaceAll2 a b r (String a (String b s)) = (r ++ replaceAll2 a b r s)%string.
Proof. simpl. rewrite !Ascii.eqb_refl. reflexivity. Qed.

Lemma replaceAll2_no_match a b r d s :
  Ascii.eqb d b = false ->
  replaceAll2 a b r (String a (String d s))
  = String a (replaceAll2 a b r (String d s)).
Proof.
  intros Hd. cbn [replaceAll2]. rewrite Hd, Bool.andb_false_r. reflexivity.
Qed.

(** Decoding a segment undoes its encoding. *)
Lemma unescape_escape (segment : string) : unescape (escape segment) = segment.
Proof.
  unfold unescape.
  induction segment as [|c s IH]; [reflexivity|].
  cbn [escape].
  destruct (Ascii.eqb c "~") eqn:Htilde.
  - apply Ascii.eqb_eq in Htilde. subst c.
    rewrite replaceAll2_no_match by reflexivity.
    rewrite (replaceAll2_other "~" "1" "/" "0") by reflexivity.
    rewrite replaceAll2_match, IH. reflexivity.
  - destruct (Ascii.eqb c "/") eqn:Hslash.
    + apply Ascii.eqb_eq in Hslash. subst c.
      rewrite replaceAll2_match. cbn [String.append].
      rewrite replaceAll2_other by reflexivity. rewrite IH. reflexivity.
    + rewrite replaceAll2_other by exact Htilde.
      rewrite replaceAll2_other by exact Htilde. rewrite IH. reflexivity.
Qed.

Lemma append_empty (s : string) : (s ++ "")%string = s.
Proof. induction s as [|c s IH]; simpl; [|rewrite IH]; reflexivity. Qed.

Lemma split_other sep c s :
  Ascii.eqb c sep = false ->
  split sep (String c s)
  = match split sep s with
    | [] => [String c EmptyString]
    | piece :: pieces => String c piece :: pieces
    end.
Proof. intros Hc. simpl. rewrite Hc. reflexivity. Qed.

(** An encoded segment holds no [/]: it stays one piece, and the pieces
    after it start at the next [/]. *)
Lemma split_escape (segment : string) :
  split "/" (escape segment) = [escape segment].
Proof.
  induction segment as [|c s IH]; [reflexivity|].
  cbn [escape].
  destruct (Ascii.eqb c "~") eqn:Htilde; [|destruct (Ascii.eqb c "/") eqn:Hslash].
  - rewrite split_other by reflexivity. rewrite split_other by reflexivity.
    rewrite IH. reflexivity.
  - rewrite split_other by reflexivity. rewrite split_other by reflexivity.
    rewrite IH. reflexivity.
  - rewrite split_other by exact Hslash. rewrite IH. reflexivity.
Qed.

Lemma split_escape_slash (segment rest : string) :
  split "/" (escape segment ++ String "/" rest)
  = escape segment :: split "/" rest.
Proof.
  induction segment as [|c s IH]; [reflexivity|].
  cbn [escape].
  destruct (Ascii.eqb c "~") eqn:Htilde; [|destruct (Ascii.eqb c "/") eqn:Hslash];
    cbn [String.append].
  - rewrite split_other by reflexivity. rewrite split_other by reflexivity.
    rewrite IH. reflexivity.
  - rewrite split_other by reflexivity. rewrite split_other by reflexivity.
    rewrite IH. reflexivity.
  - rewrite split_other by exact Hslash. rewrite IH. reflexivity.
Qed.

Lemma split_pointer (segment : string) (rest : list string) :
  split "/" (escape segment ++ pointer rest)
  = escape segment :: map escape rest.
Proof.
  revert segment. induction rest as [|next rest IH]; intros segment.
  - cbn [pointer map]. rewrite append_empty. apply split_escape.
  - cbn [pointer map]. rewrite split_escape_slash, IH. reflexivity.
Qed.

(** [PathSegments] reads a JSON Pointer back into the segments it was
    written from. *)
Lemma PathSegments_pointer (segments : list string) :
  PathSegments (pointer segments) = segments.
Proof.
  destruct segments as [|segment rest]; [reflexivity|].
  unfold PathSegments. cbn [pointer String.length Nat.eqb slice1].
  rewrite split_pointer.
  change (map unescape (map escape (segment :: rest)) = segment :: rest).
  rewrite map_map. rewrite <- (map_id (segment :: rest)) at 2.
  apply map_ext. intros s. apply unescape_escape.
Qed.

(** C7: a value that fails the check of a validator gets a failure result
    whose issues are the validator's errors, one issue per error and in the
    same order, each with the error's message and with the path decoded
    from the error's [instancePath]; the empty [instancePath] decodes to the
    empty path, and the pointer of any sequence of property-access segments
    decodes to that sequence.  (A value that passes gets a success and no
    issue.) *)
Theorem validate_reports_issues
        {Value : Type} (validator : Validator Value) (value : Value) :
  (Check validator value = false ->
   exists issues,
     validate validator value
     = StandardSchemaV1.Sync (StandardSchemaV1.Failure issues) /\
     Forall2 (fun error issue =>
                StandardSchemaV1.message issue = message error /\
                StandardSchemaV1.path issue
                = Some (map (fun s => StandardSchemaV1.Key
                                        (StandardSchemaV1.KString s))
                            (PathSegments (instancePath error))))
             (Errors validator value) issues) /\
  (Check validator value = true ->
   validate validator value
   = StandardSchemaV1.Sync (StandardSchemaV1.Success value)) /\
  PathSegments "" = [] /\
  (forall segments, PathSegments (pointer segments) = segments).
Proof.
  unfold validate. repeat split.
  - intros Hcheck. rewrite Hcheck. eexists. split; [reflexivity|].
    induction (Errors validator value) as [|error errors IH]; simpl.
    + constructor.
    + constructor; [split; reflexivity | exact IH].
  - intros Hcheck. rewrite Hcheck. reflexivity.
  - apply PathSegments_pointer.
Qed.

Lemma validate_reports_issues_witness :
  Check Scenario.titleAndTags Scenario.untitled = false /\
  exists issues,
    validate Scenario.titleAndTags Scenario.untitled
    = StandardSchemaV1.Sync (StandardSchemaV1.Failure issues) /\
    Forall2 (fun error issue =>
               StandardSchemaV1.message issue = message error /\
               StandardSchemaV1.path issue
               = Some (map (fun s => StandardSchemaV1.Key
                                       (StandardSchemaV1.KString s))
                           (PathSegments (instancePath error))))
            (Errors Scenario.titleAndTags Scenario.untitled) issues.
Proof.
  assert (Hcheck : Check Scenario.titleAndTags Scenario.untitled = false)
    by reflexivity.
  split; [exact Hcheck |].
  exact (proj1 (validate_reports_issues Scenario.titleAndTags
                  Scenario.untitled) Hcheck).
Defined.

(** The paths of that run, spelled out. *)
Example untitled_issues :
  validate Scenario.titleAndTags Scenario.untitled
  = StandardSchemaV1.Sync (StandardSchemaV1.Failure
      [ {| StandardSchemaV1.message := "must be string";
           StandardSchemaV1.path :=
             Some [ StandardSchemaV1.Key (StandardSchemaV1.KString "tags");
                    StandardSchemaV1.Key (StandardSchemaV1.KString "0") ] |};
        {| StandardSchemaV1.message := "must not have fewer than 1 characters";
           StandardSchemaV1.path :=
             Some [ StandardSchemaV1.Key (StandardSchemaV1.KString "title") ]
        |} ]).
Proof. reflexivity. Qed.

(** ** Timestamps *)

Section Timestamps.
Import JSDate.
#[local] Open Scope Z_scope.

(** *** Fields of digits *)

Lemma append_assoc (a b c : string) :
  ((a ++ b) ++ c)%string = (a ++ (b ++ c))%string.
Proof. induction a as [|x a IH]; simpl; [|rewrite IH]; reflexivity. Qed.

Lemma digit_digitChar d :
  0 <= d <= 9 -> digit (digitChar d) = Some (Z.to_N d).
Proof.
  intros H.
  assert (Hd : d = 0 \/ d = 1 \/ d = 2 \/ d = 3 \/ d = 4 \/ d = 5 \/ d = 6 \/
               d = 7 \/ d = 8 \/ d = 9) by lia.
  repeat (destruct Hd as [-> | Hd]; [reflexivity|]). subst d. reflexivity.
Qed.

(** Reading a field back: the digits written for [n] continue the number
    read so far. *)
Lemma readDigits_pad width : forall k acc n rest,
  0 <= n < 10 ^ Z.of_nat width ->
  readDigits (width + k) acc (pad width n ++ rest)
  = readDigits k (acc * 10 ^ Z.of_nat width + n) rest.
Proof.
  induction width as [|w IH]; intros k acc n rest Hn.
  - cbn [pad String.append Nat.add]. f_equal. cbn in Hn. lia.
  - cbn [pad]. rewrite append_assoc. cbn [String.append].
    rewrite Nat2Z.inj_succ, Z.pow_succ_r in * by lia.
    assert (Hq : 0 <= n / 10 < 10 ^ Z.of_nat w).
    { split; [apply Z.div_pos; lia | apply Z.div_lt_upper_bound; lia]. }
    assert (Hr : 0 <= n mod 10 <= 9)
      by (pose proof (Z.mod_pos_bound n 10); lia).
    replace (S w + k)%nat with (w + S k)%nat by lia.
    rewrite (IH (S k) acc (n / 10) _ Hq).
    cbn [readDigits]. rewrite (digit_digitChar _ Hr).
    f_equal. rewrite Z2N.id by lia. pose proof (Z.div_mod n 10). lia.
Qed.

Lemma readDigits_field width n rest :
  0 <= n < 10 ^ Z.of_nat width ->
  readDigits width 0 (pad width n ++ rest) = Some (n, rest).
Proof.
  intros Hn. pose proof (readDigits_pad width 0 0 n rest Hn) as H.
  rewrite Nat.add_0_r in H. rewrite H. cbn [readDigits]. f_equal.
Qed.

(** *** The calendar *)

(** Shifting a day by whole 400-year cycles shifts the year and nothing
    else. *)
Lemma civilFromDays_era z :
  civilFromDays z =
  let '(y0, m, d) := civilFromDays ((z + 719468) mod 146097 - 719468) in
  (y0 + 400 * ((z + 719468) / 146097), m, d).
Proof.
  unfold civilFromDays. cbv zeta.
  set (z' := z + 719468).
  assert (Hdoe : z' - z' / 146097 * 146097 = z' mod 146097)
    by (rewrite Z.mod_eq by lia; lia).
  rewrite Hdoe.
  replace (z' mod 146097 - 719468 + 719468) with (z' mod 146097) by lia.
  assert (Hsmall : z' mod 146097 / 146097 = 0)
    by (apply Z.div_small, Z.mod_pos_bound; lia).
  rewrite Hsmall.
  replace (z' mod 146097 - 0 * 146097) with (z' mod 146097) by lia.
  set (doe := z' mod 146097).
  set (yoe := (doe - doe / 1460 + doe / 36524 - doe / 146096) / 365).
  set (doy := doe - (365 * yoe + yoe / 4 - yoe / 100)).
  set (mp := (5 * doy + 2) / 153).
  clearbody mp doy yoe doe z'.
  destruct ((if mp <? 10 then mp + 3 else mp - 9) <=? 2);
    f_equal; f_equal; ring.
Qed.

Lemma daysFromCivil_era y m d k :
  daysFromCivil (y + 400 * k) m d = daysFromCivil y m d + 146097 * k.
Proof.
  unfold daysFromCivil. cbv zeta.
  set (y' := if m <=? 2 then y - 1 else y).
  replace (if m <=? 2 then y + 400 * k - 1 else y + 400 * k) with (y' + k * 400)
    by (unfold y'; destruct (m <=? 2); lia).
  rewrite Z.div_add by lia.
  replace (y' + k * 400 - (y' / 400 + k) * 400) with (y' - y' / 400 * 400)
    by ring.
  ring.
Qed.

Lemma isLeap_era y k : isLeap (y + 400 * k) = isLeap y.
Proof.
  unfold isLeap.
  replace (y + 400 * k) with (y + (100 * k) * 4) at 1 by lia.
  replace (y + 400 * k) with (y + (4 * k) * 100) at 1 by lia.
  replace (y + 400 * k) with (y + k * 400) by lia.
  rewrite !Z.mod_add by lia. reflexivity.
Qed.

Lemma daysInMonth_era y m k : daysInMonth (y + 400 * k) m = daysInMonth y m.
Proof. unfold daysInMonth. rewrite isLeap_era. reflexivity. Qed.

Lemma isLeap_true y :
  y mod 4 = 0 -> (y mod 100 <> 0 \/ y mod 400 = 0) -> isLeap y = true.
Proof.
  intros H4 H. unfold isLeap. rewrite H4. cbn [Z.eqb andb].
  destruct H as [H|H].
  - destruct (y mod 100 =? 0) eqn:E; [apply Z.eqb_eq in E; contradiction|].
    reflexivity.
  - rewrite H. cbn. apply orb_true_r.
Qed.

(** Within the cycle: the year of the cycle and the day of its year, which
    starts on 1 March. *)
Lemma cycle_year doe :
  0 <= doe < 146097 ->
  let yoe := (doe - doe / 1460 + doe / 36524 - doe / 146096) / 365 in
  let doy := doe - (365 * yoe + yoe / 4 - yoe / 100) in
  0 <= yoe <= 399 /\ 0 <= doy <= 365 /\
  (doy = 365 ->
   (yoe + 1) mod 4 = 0 /\ ((yoe + 1) mod 100 <> 0 \/ (yoe + 1) mod 400 = 0)) /\
  (146037 <= doe -> yoe = 399 /\ 306 <= doy) /\
  (doe < 146037 -> yoe = 399 -> doy < 306).
Proof.
  intros H yoe doy. subst yoe doy.
  Z.div_mod_to_equations. lia.
Qed.

(** ... and within that year: the month, counted from March, and the day
    of the month. *)
Lemma year_day doy :
  0 <= doy <= 365 ->
  let mp := (5 * doy + 2) / 153 in
  let d := doy - (153 * mp + 2) / 5 + 1 in
  0 <= mp <= 11 /\ 1 <= d <= 31 /\
  (mp = 1 \/ mp = 3 \/ mp = 6 \/ mp = 8 -> d <= 30) /\
  (mp = 11 -> d <= 29 /\ (doy <= 364 -> d <= 28)) /\
  (10 <= mp <-> 306 <= doy).
Proof.
  intros H mp d. subst mp d.
  Z.div_mod_to_equations. lia.
Qed.

(** The date of a day of the cycle exists, lies in the years 0 to 400 of
    the cycle, and has that day as its day number. *)
Lemma civil_cycle doe y0 m d :
  0 <= doe < 146097 ->
  civilFromDays (doe - 719468) = (y0, m, d) ->
  1 <= m <= 12 /\ 1 <= d <= daysInMonth y0 m /\
  daysFromCivil y0 m d = doe - 719468 /\
  0 <= y0 <= 400 /\
  (146037 <= doe -> y0 = 400) /\ (doe < 146037 -> y0 <= 399).
Proof.
  intros Hdoe. unfold civilFromDays. cbv zeta.
  replace (doe - 719468 + 719468) with doe by lia.
  rewrite (Z.div_small doe 146097) by lia.
  replace (doe - 0 * 146097) with doe by lia.
  destruct (cycle_year doe Hdoe) as (Hyoe & Hdoy & Hleap & Hlast & Hnot).
  set (yoe := (doe - doe / 1460 + doe / 36524 - doe / 146096) / 365) in *.
  set (doy := doe - (365 * yoe + yoe / 4 - yoe / 100)) in *.
  destruct (year_day doy Hdoy) as (Hmp & Hd & H30 & Hfeb & Hjan).
  set (mp := (5 * doy + 2) / 153) in *.
  set (dd := doy - (153 * mp + 2) / 5 + 1) in *.
  assert (Hdef : doy = doe - (365 * yoe + yoe / 4 - yoe / 100)) by reflexivity.
  assert (Hdd : dd = doy - (153 * mp + 2) / 5 + 1) by reflexivity.
  clearbody dd doy yoe mp.
  assert (Hera : yoe / 400 = 0) by (apply Z.div_small; lia).
  intros Heq.
  apply pair_equal_spec in Heq. destruct Heq as [Heq <-].
  apply pair_equal_spec in Heq. destruct Heq as [<- <-].
  replace (yoe + 0 * 400) with yoe by lia.
  unfold daysFromCivil, daysInMonth. cbv zeta.
  destruct (Z.ltb_spec mp 10) as [Hlt | Hge].
  - (* March to December *)
    destruct (Z.leb_spec (mp + 3) 2) as [Habs | _]; [lia|].
    destruct (Z.ltb_spec 2 (mp + 3)) as [_ | Habs]; [|lia].
    destruct (Z.eqb_spec (mp + 3) 2) as [Habs | _]; [lia|].
    replace (mp + 3 - 3) with mp by lia. rewrite Hera.
    replace (yoe - 0 * 400) with yoe by lia.
    assert (Hdim : dd <= if ((mp + 3 =? 4) || (mp + 3 =? 6) || (mp + 3 =? 9)
                             || (mp + 3 =? 11))%bool then 30 else 31).
    { destruct (Z.eqb_spec (mp + 3) 4); [cbn [orb]; lia|].
      destruct (Z.eqb_spec (mp + 3) 6); [cbn [orb]; lia|].
      destruct (Z.eqb_spec (mp + 3) 9); [cbn [orb]; lia|].
      destruct (Z.eqb_spec (mp + 3) 11); cbn [orb]; lia. }
    repeat split; try lia.
  - (* January and February *)
    destruct (Z.leb_spec (mp - 9) 2) as [_ | Habs]; [|lia].
    destruct (Z.ltb_spec 2 (mp - 9)) as [Habs | _]; [lia|].
    replace (mp - 9 + 9) with mp by lia.
    replace (yoe + 1 - 1) with yoe by lia. rewrite Hera.
    replace (yoe - 0 * 400) with yoe by lia.
    assert (Hdim : dd <= if mp - 9 =? 2
                         then (if isLeap (yoe + 1) then 29 else 28)
                         else if ((mp - 9 =? 4) || (mp - 9 =? 6) ||
                                  (mp - 9 =? 9) || (mp - 9 =? 11))%bool
                              then 30 else 31).
    { destruct (Z.eqb_spec (mp - 9) 2) as [Hfebr | Hjanu].
      - destruct (Z.eq_dec doy 365) as [H365 | H365].
        + destruct (Hleap H365) as [H4 H100].
          rewrite (isLeap_true _ H4 H100). lia.
        + destruct (isLeap (yoe + 1)); lia.
      - destruct (Z.eqb_spec (mp - 9) 4); [lia|].
        destruct (Z.eqb_spec (mp - 9) 6); [lia|].
        destruct (Z.eqb_spec (mp - 9) 9); [lia|].
        destruct (Z.eqb_spec (mp - 9) 11); [lia|]. cbn [orb]. lia. }
    repeat split; try lia.
Qed.

(** Every day has a date that exists and leads back to the day; the days
    from 0000-01-01 to 9999-12-31 have a four-digit year. *)
Lemma civilFromDays_valid z y m d :
  civilFromDays z = (y, m, d) ->
  1 <= m <= 12 /\ 1 <= d <= daysInMonth y m /\ daysFromCivil y m d = z /\
  (-719528 <= z <= 2932896 -> 0 <= y <= 9999).
Proof.
  rewrite civilFromDays_era.
  set (era := (z + 719468) / 146097). set (doe := (z + 719468) mod 146097).
  assert (Hdoe : 0 <= doe < 146097) by (apply Z.mod_pos_bound; lia).
  assert (Hz : z = doe - 719468 + 146097 * era).
  { unfold doe, era. pose proof (Z.div_mod (z + 719468) 146097). lia. }
  destruct (civilFromDays (doe - 719468)) as [[y0 m0] d0] eqn:Hcycle.
  destruct (civil_cycle doe y0 m0 d0 Hdoe Hcycle)
    as (Hm & Hd & Hback & Hy0 & Hlast & Hnot).
  clearbody era doe.
  intros Heq.
  apply pair_equal_spec in Heq. destruct Heq as [Heq <-].
  apply pair_equal_spec in Heq. destruct Heq as [<- <-].
  rewrite daysInMonth_era, daysFromCivil_era.
  repeat split; try lia.
Qed.

(** The time of day splits into hours, minutes, seconds and
    milliseconds. *)
Lemma timeOfDay ms :
  0 <= ms < msPerDay ->
  0 <= ms / 3600000 <= 23 /\ 0 <= (ms / 60000) mod 60 <= 59 /\
  0 <= (ms / 1000) mod 60 <= 59 /\ 0 <= ms mod 1000 <= 999 /\
  ms / 3600000 * 3600000 + (ms / 60000) mod 60 * 60000 +
  (ms / 1000) mod 60 * 1000 + ms mod 1000 = ms.
Proof.
  unfold msPerDay. intros H. Z.div_mod_to_equations. lia.
Qed.

(** Reading a timestamp written with a four-digit year gives the time
    value it was written from. *)
Lemma parseUTC_formatUTC t :
  fourDigitYear t -> parseUTC (formatUTC t) = Some t.
Proof.
  unfold fourDigitYear. intros Ht. unfold formatUTC.
  assert (Hms : 0 <= t mod msPerDay < msPerDay)
    by (apply Z.mod_pos_bound; reflexivity).
  assert (Hday : -719528 <= t / msPerDay <= 2932896).
  { unfold msPerDay in *. pose proof (Z.div_mod t 86400000). lia. }
  assert (Ht' : t = t / msPerDay * msPerDay + t mod msPerDay).
  { unfold msPerDay. pose proof (Z.div_mod t 86400000). lia. }
  destruct (civilFromDays (t / msPerDay)) as [[y m] d] eqn:Hcivil.
  destruct (civilFromDays_valid _ _ _ _ Hcivil) as (Hm & Hd & Hback & Hy).
  specialize (Hy Hday).
  destruct (timeOfDay _ Hms) as (Hh & Hmi & Hs & Hf & Hsum).
  assert (Hdim : daysInMonth y m <= 31).
  { unfold daysInMonth.
    destruct (m =? 2); [destruct (isLeap y) | destruct (_ || _)%bool]; lia. }
  replace ((0 <=? y) && (y <=? 9999))%bool with true
    by (symmetry; apply andb_true_intro; split; apply Z.leb_le; lia).
  unfold parseUTC.
  rewrite (readDigits_field 4) by (change (10 ^ Z.of_nat 4) with 10000; lia).
  cbn [andThen expect String.append Ascii.eqb Bool.eqb].
  rewrite (readDigits_field 2) by (change (10 ^ Z.of_nat 2) with 100; lia).
  cbn [andThen expect String.append Ascii.eqb Bool.eqb].
  rewrite (readDigits_field 2) by (change (10 ^ Z.of_nat 2) with 100; lia).
  cbn [andThen expect String.append Ascii.eqb Bool.eqb].
  rewrite (readDigits_field 2) by (change (10 ^ Z.of_nat 2) with 100; lia).
  cbn [andThen expect String.append Ascii.eqb Bool.eqb].
  rewrite (readDigits_field 2) by (change (10 ^ Z.of_nat 2) with 100; lia).
  cbn [andThen expect String.append Ascii.eqb Bool.eqb].
  rewrite (readDigits_field 2) by (change (10 ^ Z.of_nat 2) with 100; lia).
  cbn [andThen expect String.append Ascii.eqb Bool.eqb].
  rewrite (readDigits_field 3) by (change (10 ^ Z.of_nat 3) with 1000; lia).
  cbn [andThen expect String.append Ascii.eqb Bool.eqb String.eqb].
  replace (1 <=? m) with true by (symmetry; apply Z.leb_le; lia).
  replace (m <=? 12) with true by (symmetry; apply Z.leb_le; lia).
  replace (1 <=? d) with true by (symmetry; apply Z.leb_le; lia).
  replace (d <=? daysInMonth y m) with true
    by (symmetry; apply Z.leb_le; lia).
  replace (t mod msPerDay / 3600000 <=? 23) with true
    by (symmetry; apply Z.leb_le; lia).
  replace ((t mod msPerDay / 60000) mod 60 <=? 59) with true
    by (symmetry; apply Z.leb_le; lia).
  replace ((t mod msPerDay / 1000) mod 60 <=? 59) with true
    by (symmetry; apply Z.leb_le; lia).
  cbn [andb]. f_equal. rewrite Hback. lia.
Qed.

(** So every timestamp [toISOString] writes with a four-digit year is one
    that [new Date(s).toISOString()] gives back unchanged. *)
Lemma toISOString_newDate (parseOther : string -> option Z) (d : Date)
      (s : string) :
  toISOString d = Ok s ->
  (forall t, d = Some t -> fourDigitYear t) ->
  toISOString (newDate parseOther s) = Ok s.
Proof.
  intros Hiso Hrange. destruct d as [t|]; [|discriminate].
  injection Hiso as <-. specialize (Hrange t eq_refl).
  unfold newDate. rewrite (parseUTC_formatUTC t Hrange).
  unfold TimeClip, maxTime.
  replace (Z.abs t <=? 8640000000000000) with true
    by (symmetry; apply Z.leb_le; unfold fourDigitYear in Hrange; lia).
  reflexivity.
Qed.

End Timestamps.

(** ** The prisma adapter *)

Import JSDate PrismaAdapter.

(** C9: for every event whose [eventCreatedAt] is a timestamp that
    [new Date(s).toISOString()] gives back unchanged, converting the event
    to a row and the row back to an event returns the event: [eventId],
    [eventName], [entityId], [entityName], [eventCreatedAt] and [body] are
    all preserved. *)
Theorem rowToEvent_eventToRow
        {Body : Type} (parseOther : string -> option Z)
        (event : BaseEventType Body) :
  toISOString (newDate parseOther (Types.eventCreatedAt event))
  = Ok (Types.eventCreatedAt event) ->
  rowToEvent (eventToRow parseOther event) = Ok event.
Proof.
  intros Hcanonical. unfold rowToEvent, eventToRow.
  cbn [eventCreatedAt eventId eventName entityId entityName body].
  rewrite Hcanonical. destruct event. reflexivity.
Qed.

Lemma rowToEvent_eventToRow_witness :
  toISOString (newDate Scenario.strictEngine
                 (Types.eventCreatedAt Scenario.created))
  = Ok (Types.eventCreatedAt Scenario.created) /\
  rowToEvent (eventToRow Scenario.strictEngine Scenario.created)
  = Ok Scenario.created.
Proof.
  assert (H : toISOString (newDate Scenario.strictEngine
                             (Types.eventCreatedAt Scenario.created))
              = Ok (Types.eventCreatedAt Scenario.created))
    by (vm_compute; reflexivity).
  split; [exact H | exact (rowToEvent_eventToRow _ _ H)].
Defined.

(** Without that condition the round trip changes the timestamp, or
    throws. *)
Example date_only_timestamp_is_rewritten :
  rowToEvent
    (eventToRow Scenario.lenientEngine
       {| Types.eventId := "event-1"; Types.eventCreatedAt := "2024-01-15";
          Types.entityName := "article"; Types.entityId := "article-1";
          Types.eventName := "article:created"; Types.body := tt |})
  = Ok {| Types.eventId := "event-1";
          Types.eventCreatedAt := "2024-01-15T00:00:00.000Z";
          Types.entityName := "article"; Types.entityId := "article-1";
          Types.eventName := "article:created"; Types.body := tt |}.
Proof. vm_compute. reflexivity. Qed.

Example unreadable_timestamp_throws :
  rowToEvent
    (eventToRow Scenario.strictEngine
       {| Types.eventId := "event-1"; Types.eventCreatedAt := "yesterday";
          Types.entityName := "article"; Types.entityId := "article-1";
          Types.eventName := "article:created"; Types.body := tt |})
  = Throw (RangeError "Invalid time value").
Proof. reflexivity. Qed.

(** The condition holds of every timestamp that [toISOString] wrote with a
    four-digit year, so such events survive the round trip; among them are
    the events an entity stamps from its own time source. *)
Lemma stamped_event_round_trip
      {Body : Type} (parseOther : string -> option Z)
      (event : BaseEventType Body) (d : Date) :
  toISOString d = Ok (Types.eventCreatedAt event) ->
  (forall t, d = Some t -> fourDigitYear t) ->
  rowToEvent (eventToRow parseOther event) = Ok event.
Proof.
  intros Hstamp Hrange. unfold rowToEvent, eventToRow.
  cbn [eventCreatedAt eventId eventName entityId entityName body].
  rewrite (toISOString_newDate parseOther d _ Hstamp Hrange).
  destruct event. reflexivity.
Qed.

Lemma created_event_round_trip
      {Body State : Type} (schema : Entity.Schema Body State)
      (parseOther : string -> option Z) (amb : Entity.Ambient) (n : nat)
      (entityId eventName : string) (body : Body)
      (event : BaseEventType Body) :
  Entity.createEvent schema amb n entityId eventName body Entity.noOptions
  = Ok event ->
  (forall t, Entity.now amb = Some t -> fourDigitYear t) ->
  rowToEvent (eventToRow parseOther event) = Ok event.
Proof.
  unfold Entity.createEvent. cbn [Entity.opt_eventCreatedAt Entity.noOptions].
  destruct (toISOString (Entity.now amb)) as [iso|err] eqn:Hiso;
    cbn [bind]; [|discriminate].
  intros Hevent Hrange. injection Hevent as <-.
  apply (stamped_event_round_trip parseOther _ (Entity.now amb)).
  - exact Hiso.
  - exact Hrange.
Qed.

Section AdapterFacts.
Variables Body State SnapshotRow DB Query : Type.
Variable parseOther : string -> option Z.
Variable options : VentydAdapterOptions Body State SnapshotRow DB Query.

(** C1: [commitEvents] talks to the database once, through one
    [$transaction] call that holds both writes: the [createMany] of the
    rows of the new events and the [upsert] of the snapshot row.  With a
    client whose [$transaction] is all-or-nothing, either both writes have
    taken effect, in that order, or the call rejects and the database is as
    it was. *)
Theorem commitEvents_all_or_nothing
        (run : Query -> DB -> option DB)
        (events : list (BaseEventType Body)) (entityId : string)
        (state : State) (db : DB) :
  AllOrNothing (prisma_transaction options) run ->
  let snapshotRow := entityToRow options entityId state in
  let writeEvents :=
    event_createMany options (map (eventToRow parseOther) events) in
  let writeSnapshot :=
    snapshot_upsert options
      {| where_id := entityId; update := snapshotRow;
         create := snapshotRow |} in
  let committed :=
    commitEvents (prismaAdapter parseOther options)
      events entityId state db in
  committed = prisma_transaction options [writeEvents; writeSnapshot] db /\
  ((exists db1 db2,
       run writeEvents db = Some db1 /\
       run writeSnapshot db1 = Some db2 /\
       committed = (db2, Ok tt)) \/
   (exists err, committed = (db, Throw err))).
Proof.
  intros Hatomic snapshotRow writeEvents writeSnapshot committed.
  assert (Hcall : committed
                  = prisma_transaction options [writeEvents; writeSnapshot] db)
    by reflexivity.
  split; [exact Hcall|].
  destruct committed as [db' r] eqn:Hcommitted.
  symmetry in Hcall.
  destruct (Hatomic _ _ _ _ Hcall) as [[-> Hrun] | [err [-> ->]]].
  - left. simpl in Hrun.
    destruct (run writeEvents db) as [db1|] eqn:Hfirst; [|discriminate].
    destruct (run writeSnapshot db1) as [db2|] eqn:Hsecond; [|discriminate].
    injection Hrun as <-. exists db1, db2.
    split; [reflexivity | split; [exact Hsecond | reflexivity]].
  - right. exists err. reflexivity.
Qed.

Lemma mapM_rowToEvent (rows : list (BaseEventTypeRow Body)) :
  (forall row, In row rows -> eventCreatedAt row <> None) ->
  exists events,
    mapM rowToEvent rows = Ok events /\
    Forall2 (fun row event => rowToEvent row = Ok event) rows events.
Proof.
  induction rows as [|row rows IH]; intros Hvalid.
  - exists []. split; [reflexivity | constructor].
  - destruct IH as (events & Hmap & Hall).
    { intros r Hin. apply Hvalid. now right. }
    assert (Hrow : exists event, rowToEvent row = Ok event).
    { unfold rowToEvent.
      destruct (eventCreatedAt row) as [t|] eqn:Ht.
      - eexists. reflexivity.
      - exfalso. now apply (Hvalid row (or_introl eq_refl)). }
    destruct Hrow as [event Hrow].
    exists (event :: events). split.
    + cbn [mapM]. rewrite Hrow. cbn [bind]. rewrite Hmap. reflexivity.
    + constructor; assumption.
Qed.

(** [getEventsByEntityId] asks [findMany] for the rows of the
    [entityName]/[entityId] pair and, when every row has a valid date,
    returns the events [rowToEvent] makes of them, one per row and in the
    order [findMany] answered them: it asks for no order and sorts
    nothing.  It returns the empty sequence when [findMany] answers no
    row. *)
Lemma getEventsByEntityId_follows_findMany
        (entityName entityId : string) (db db' : DB)
        (rows : list (BaseEventTypeRow Body)) :
  event_findMany options
    {| where_entityName := entityName; where_entityId := entityId |} db
  = (db', Ok rows) ->
  (forall row, In row rows -> eventCreatedAt row <> None) ->
  exists events,
    getEventsByEntityId (prismaAdapter parseOther options)
      entityName entityId db = (db', Ok events) /\
    Forall2 (fun row event => rowToEvent row = Ok event) rows events /\
    (rows = [] -> events = []).
Proof.
  intros Hfind Hvalid.
  destruct (mapM_rowToEvent rows Hvalid) as (events & Hmap & Hall).
  exists events. split; [|split].
  - cbn [getEventsByEntityId prismaAdapter]. rewrite Hfind.
    cbn [bind]. rewrite Hmap. reflexivity.
  - exact Hall.
  - intros ->. inversion Hall. reflexivity.
Qed.

End AdapterFacts.

(** The in-memory client's [$transaction] is all-or-nothing. *)
Lemma memory_transaction_all_or_nothing {Body SnapshotRow : Type} :
  AllOrNothing (@MemoryPrisma.transaction Body SnapshotRow) MemoryPrisma.run.
Proof.
  intros qs db db' r Htx. unfold MemoryPrisma.transaction in Htx.
  destruct (runAll MemoryPrisma.run qs db) as [db''|] eqn:Hrun;
    injection Htx as <- <-.
  - left. split; reflexivity.
  - right. eexists. split; reflexivity.
Qed.

Lemma commitEvents_all_or_nothing_witness :
  AllOrNothing
    (prisma_transaction Article.prisma)
    MemoryPrisma.run /\
  commitEvents (Article.adapter Scenario.strictEngine)
    [Scenario.created; Scenario.titleUpdated] "article-1"
    Scenario.nineFields MemoryPrisma.empty
  = MemoryPrisma.transaction
      [ MemoryPrisma.CreateMany
          (map (eventToRow Scenario.strictEngine)
               [Scenario.created; Scenario.titleUpdated]);
        MemoryPrisma.Upsert
          {| where_id := "article-1";
             update := ("article-1", Scenario.nineFields);
             create := ("article-1", Scenario.nineFields) |} ]
      MemoryPrisma.empty.
Proof.
  assert (Hatomic : AllOrNothing
                      (prisma_transaction Article.prisma)
                      MemoryPrisma.run)
    by apply memory_transaction_all_or_nothing.
  split; [exact Hatomic |].
  exact (proj1 (commitEvents_all_or_nothing _ _ _ _ _
                  Scenario.strictEngine
                  Article.prisma
                  MemoryPrisma.run
                  [Scenario.created; Scenario.titleUpdated] "article-1"
                  Scenario.nineFields MemoryPrisma.empty Hatomic)).
Defined.

(** On the in-memory client the commit of the two events leaves both tables
    written. *)
Example commit_two_events :
  commitEvents (Article.adapter Scenario.strictEngine)
    [Scenario.created; Scenario.titleUpdated] "article-1"
    Scenario.nineFields MemoryPrisma.empty
  = (Scenario.twoEvents, Ok tt).
Proof. vm_compute. reflexivity. Qed.

(** ... and committing them a second time writes nothing: the duplicate
    event ids make [createMany] fail, and the snapshot is not touched. *)
Example commit_twice_changes_nothing :
  commitEvents (Article.adapter Scenario.strictEngine)
    [Scenario.created; Scenario.titleUpdated] "article-1"
    Scenario.archivedState Scenario.twoEvents
  = (Scenario.twoEvents, Throw (Error "Transaction failed")).
Proof. vm_compute. reflexivity. Qed.

(** C4: [getEventsByEntityId] does not return the events in creation
    order.  The adapter commits the two events of the article in creation
    order, [created] before [titleUpdated], and the table holds them in
    that order; with a client whose [findMany], asked for no order, answers
    in the order of the primary key [eventId], [getEventsByEntityId]
    returns [titleUpdated] before [created], and replaying what it returned
    gives the title of the creation, not the updated one. *)
Theorem getEventsByEntityId_not_in_creation_order :
  commitEvents (prismaAdapter Scenario.strictEngine Scenario.byPrimaryKey)
    [Scenario.created; Scenario.titleUpdated] "article-1"
    Scenario.nineFields MemoryPrisma.empty
  = (Scenario.twoEvents, Ok tt) /\
  MemoryPrisma.events Scenario.twoEvents
  = map (eventToRow Scenario.strictEngine)
        [Scenario.created; Scenario.titleUpdated] /\
  getEventsByEntityId (prismaAdapter Scenario.strictEngine Scenario.byPrimaryKey)
    "article" "article-1" Scenario.twoEvents
  = (Scenario.twoEvents, Ok [Scenario.titleUpdated; Scenario.created]) /\
  [Scenario.titleUpdated; Scenario.created]
  <> [Scenario.created; Scenario.titleUpdated] /\
  member_of (Article.replay [Scenario.titleUpdated; Scenario.created]) "title"
  = Ok (VStr "T") /\
  member_of (Article.replay [Scenario.created; Scenario.titleUpdated]) "title"
  = Ok (VStr "T2").
Proof.
  split; [|split; [|split; [|split; [|split]]]].
  - vm_compute. reflexivity.
  - reflexivity.
  - vm_compute. reflexivity.
  - intros H. injection H as H _. discriminate H.
  - reflexivity.
  - reflexivity.
Qed.

(* ################################################################# *)
(** * Further properties *)

(** ** Objects: lookup after writes, spreads and enumeration *)

Import Objects.

Lemma own_app {A} (l1 l2 : object A) (k : string) :
  own (l1 ++ l2)%list k = match own l1 k with
                          | Some a => Some a
                          | None => own l2 k
                          end.
Proof.
  induction l1 as [|[k' a] l1 IH]; simpl; [reflexivity|].
  destruct (String.eqb k' k); [reflexivity | exact IH].
Qed.

Lemma own_In {A} (o : object A) (k : string) :
  own o k <> None <-> In k (map fst o).
Proof.
  induction o as [|[k' a] o IH]; simpl.
  - split; [intros H; now apply H | intros []].
  - destruct (String.eqb_spec k' k) as [->|Hne].
    + split; [now left | discriminate].
    + rewrite IH. split; [now right | intros [H|H]; [contradiction | exact H]].
Qed.

Lemma own_None {A} (o : object A) (k : string) :
  own o k = None <-> ~ In k (map fst o).
Proof.
  rewrite <- own_In. destruct (own o k); split; intros H;
    try discriminate; try reflexivity; try (intros H'; now apply H').
  exfalso. apply H. discriminate.
Qed.

Lemma own_set {A} (o : object A) (k : string) (a : A) (k' : string) :
  own (JS.set o k a) k' = if String.eqb k k' then Some a else own o k'.
Proof.
  induction o as [|[k0 a0] o IH]; simpl.
  - reflexivity.
  - destruct (String.eqb_spec k0 k) as [->|Hne]; simpl.
    + destruct (String.eqb k k'); reflexivity.
    + destruct (String.eqb_spec k0 k') as [->|Hne'].
      * destruct (String.eqb_spec k k'); [congruence | reflexivity].
      * exact IH.
Qed.

Lemma set_keys {A} (o : object A) (k : string) (a : A) :
  map fst (JS.set o k a)
  = if existsb (String.eqb k) (map fst o) then map fst o
    else (map fst o ++ [k])%list.
Proof.
  induction o as [|[k0 a0] o IH]; simpl; [reflexivity|].
  rewrite (String.eqb_sym k k0).
  destruct (String.eqb k0 k); simpl; [reflexivity|].
  rewrite IH. destruct (existsb (String.eqb k) (map fst o)); reflexivity.
Qed.

Lemma wellFormed_set {A} (o : object A) (k : string) (a : A) :
  wellFormed o -> wellFormed (JS.set o k a).
Proof.
  unfold wellFormed. intros H. rewrite set_keys.
  destruct (existsb (String.eqb k) (map fst o)) eqn:E; [exact H|].
  apply NoDup_app; [exact H | repeat constructor; intros [] | ].
  intros x Hx [<-|[]].
  assert (existsb (String.eqb k) (map fst o) = true)
    by (apply existsb_exists; exists k; split;
        [exact Hx | apply String.eqb_refl]).
  congruence.
Qed.

Lemma own_fold_set {A} (entries : list (string * A)) : forall (o : object A) k,
  own (fold_left (fun o kv => JS.set o (fst kv) (snd kv)) entries o) k
  = match own (rev entries) k with
    | Some a => Some a
    | None => own o k
    end.
Proof.
  induction entries as [|[k0 a0] entries IH]; intros o k; simpl.
  - reflexivity.
  - rewrite IH, own_app, own_set. simpl.
    destruct (own (rev entries) k); [reflexivity|].
    destruct (String.eqb k0 k); reflexivity.
Qed.

Lemma wellFormed_fold_set {A} (entries : list (string * A)) :
  forall o : object A,
    wellFormed o ->
    wellFormed (fold_left (fun o kv => JS.set o (fst kv) (snd kv)) entries o).
Proof.
  induction entries as [|kv entries IH]; intros o H; simpl; [exact H|].
  apply IH, wellFormed_set, H.
Qed.

(** An object literal is well formed, and each of its keys has the last
    value written for it. *)
Lemma own_literal {A} (entries : list (string * A)) (k : string) :
  own (literal entries) k = own (rev entries) k.
Proof.
  unfold literal. rewrite own_fold_set. simpl.
  destruct (own (rev entries) k); reflexivity.
Qed.

Lemma wellFormed_literal {A} (entries : list (string * A)) :
  wellFormed (literal entries).
Proof. apply wellFormed_fold_set. constructor. Qed.

(** The order of the properties of a well-formed object does not matter
    to a lookup. *)
Lemma own_perm {A} (l l' : object A) (k : string) :
  Permutation l l' -> wellFormed l -> own l k = own l' k.
Proof.
  unfold wellFormed. induction 1 as [| [k0 a0] l l' Hp IH
                                     | [k1 a1] [k2 a2] l
                                     | l l' l'' Hp1 IH1 Hp2 IH2]; intros Hnd.
  - reflexivity.
  - simpl. destruct (String.eqb k0 k); [reflexivity|].
    apply IH. now inversion Hnd.
  - simpl. destruct (String.eqb_spec k1 k) as [->|H1];
      destruct (String.eqb_spec k2 k) as [->|H2]; try reflexivity.
    exfalso. inversion Hnd as [|? ? Hnot _]. apply Hnot. now left.
  - rewrite IH1 by exact Hnd. apply IH2.
    eapply Permutation_NoDup; [apply Permutation_map, Hp1 | exact Hnd].
Qed.

Lemma wellFormed_perm {A} (l l' : object A) :
  Permutation l l' -> wellFormed l -> wellFormed l'.
Proof.
  unfold wellFormed. intros Hp. apply Permutation_NoDup, Permutation_map, Hp.
Qed.

Lemma own_Object_entries {A} (o : object A) (k : string) :
  wellFormed o -> own (Object_entries o) k = own o k.
Proof.
  intros H. symmetry. apply own_perm; [|exact H].
  apply Permutation_sym, Object_entries_perm.
Qed.

Lemma wellFormed_Object_entries {A} (o : object A) :
  wellFormed o -> wellFormed (Object_entries o).
Proof.
  apply wellFormed_perm, Permutation_sym, Object_entries_perm.
Qed.

Lemma own_rev {A} (o : object A) (k : string) :
  wellFormed o -> own (rev o) k = own o k.
Proof.
  intros H. symmetry. apply own_perm; [apply Permutation_rev | exact H].
Qed.

(** [{...prev, k1: v1, ..., kn: vn}] is [prev] with the fields written over
    it. *)
Lemma spread_then_write {A} (prev : object A) (fields : list (string * A)) :
  wellFormed prev ->
  updated prev fields (literal (Object_entries prev ++ fields)).
Proof.
  intros H. split; [apply wellFormed_literal|].
  intros k. rewrite own_literal, rev_app_distr, own_app.
  destruct (own (rev fields) k); [reflexivity|].
  rewrite own_rev by (apply wellFormed_Object_entries, H).
  apply own_Object_entries, H.
Qed.

Lemma member_own (o o' : object value) (k : string) :
  own o k = own o' k -> member o k = member o' k.
Proof. intros H. unfold member, get. rewrite H. reflexivity. Qed.

(** ** The article reducer *)

(** X1: on a well-formed state object, each updating event writes its own
    fields and leaves every other property of the state as it was. *)
Theorem update_events_write_only_their_fields
        (prev : object value) (e : Article.Event) :
  wellFormed prev ->
  (Types.eventName e = "article:title_updated" ->
   exists next, Article.articleReducer (VObj prev) e = VObj next /\
     updated prev [("title", member (Types.body e) "title")] next) /\
  (Types.eventName e = "article:content_updated" ->
   exists next, Article.articleReducer (VObj prev) e = VObj next /\
     updated prev [("content", member (Types.body e) "content")] next) /\
  (Types.eventName e = "article:tags_updated" ->
   exists next, Article.articleReducer (VObj prev) e = VObj next /\
     updated prev [("tags", member (Types.body e) "tags")] next) /\
  (Types.eventName e = "article:published" ->
   exists next, Article.articleReducer (VObj prev) e = VObj next /\
     updated prev [("isPublished", VBool true);
                   ("publishedAt", member (Types.body e) "publishedAt")] next) /\
  (Types.eventName e = "article:unpublished" ->
   exists next, Article.articleReducer (VObj prev) e = VObj next /\
     updated prev [("isPublished", VBool false);
                   ("publishedAt", VUndefined)] next) /\
  (Types.eventName e = "article:archived" ->
   exists next, Article.articleReducer (VObj prev) e = VObj next /\
     updated prev [("isArchived", VBool true);
                   ("archivedReason", member (Types.body e) "reason");
                   ("archivedAt", VStr (Types.eventCreatedAt e))] next) /\
  (Types.eventName e = "article:unarchived" ->
   exists next, Article.articleReducer (VObj prev) e = VObj next /\
     updated prev [("isArchived", VBool false);
                   ("archivedReason", VUndefined);
                   ("archivedAt", VUndefined)] next).
Proof.
  intros Hwf.
  repeat split; intros Hname; unfold Article.articleReducer;
    rewrite Hname; simpl switch; eexists; (split; [reflexivity|]);
    apply spread_then_write, Hwf.
Qed.

Lemma update_events_write_only_their_fields_witness :
  wellFormed [("title", VStr "T"); ("isPublished", VBool false)] /\
  exists next,
    Article.articleReducer
      (VObj [("title", VStr "T"); ("isPublished", VBool false)])
      Scenario.titleUpdated = VObj next /\
    updated [("title", VStr "T"); ("isPublished", VBool false)]
      [("title", member (Types.body Scenario.titleUpdated) "title")] next.
Proof.
  assert (Hwf : wellFormed [("title", VStr "T"); ("isPublished", VBool false)]).
  { repeat constructor; simpl; intuition discriminate. }
  split; [exact Hwf|].
  exact (proj1 (update_events_write_only_their_fields _ Scenario.titleUpdated
                  Hwf) eq_refl).
Defined.

Lemma created_ignores_state (s s' : Article.State) (e : Article.Event) :
  Types.eventName e = "article:created" ->
  Article.articleReducer s e = Article.articleReducer s' e.
Proof.
  intros Hname. unfold Article.articleReducer. rewrite Hname. reflexivity.
Qed.

(** X2: an [article:created] event starts the state over: whatever events
    were replayed before it, the state is the one replayed from that event
    on. *)
Theorem replay_restarts_at_created
        (before after : list Article.Event) (e : Article.Event) :
  Types.eventName e = "article:created" ->
  Article.replay (before ++ e :: after) = Article.replay (e :: after).
Proof.
  intros Hname. unfold Article.replay.
  rewrite fold_left_app. cbn [fold_left].
  rewrite (created_ignores_state _ VUndefined e Hname). reflexivity.
Qed.

Lemma replay_restarts_at_created_witness :
  Types.eventName Scenario.created = "article:created" /\
  Article.replay ([Scenario.titleUpdated] ++ Scenario.created :: [])
  = Article.replay (Scenario.created :: []).
Proof.
  split; [reflexivity|].
  exact (replay_restarts_at_created [Scenario.titleUpdated] []
           Scenario.created eq_refl).
Defined.

(** ** The article state stays valid *)

Import TypeBox.

Lemma check_object (ps : list (string * (bool * TSchema))) (o : object value) :
  check (TObject ps) (VObj o)
  = forallb (fun p => propertyOk (fst (snd p)) (snd (snd p))
                                 (member o (fst p))) ps.
Proof.
  cbn [check]. induction ps as [|[k [opt t]] ps IH]; [reflexivity|].
  cbn [forallb fst snd]. rewrite <- IH. unfold propertyOk.
  destruct opt; destruct (member o k) eqn:Hm; cbn; rewrite ?Hm; reflexivity.
Qed.

Lemma check_object_inv (ps : list (string * (bool * TSchema))) (v : value) :
  check (TObject ps) v = true -> exists o, v = VObj o.
Proof. destruct v; cbn [check]; try discriminate. eauto. Qed.

Lemma member_of_own (o : object value) (k : string) (v : value) :
  own o k = Some v -> member o k = v.
Proof. intros H. unfold member, get. rewrite H. reflexivity. Qed.

(** Writing fields that fit their types over an object that passes an
    object type gives an object that passes it. *)
Lemma check_updated (ps : list (string * (bool * TSchema)))
      (prev next : object value) (fields : list (string * value)) :
  updated prev fields next ->
  check (TObject ps) (VObj prev) = true ->
  (forall k v opt t,
      own (rev fields) k = Some v -> In (k, (opt, t)) ps ->
      propertyOk opt t v = true) ->
  check (TObject ps) (VObj next) = true.
Proof.
  intros [_ Hown] Hprev Hfields. rewrite check_object in *.
  rewrite forallb_forall in *. intros [k [opt t]] Hin. cbn [fst snd].
  specialize (Hown k).
  destruct (own (rev fields) k) as [v|] eqn:Hk.
  - rewrite (member_of_own _ _ _ Hown). eapply Hfields; eassumption.
  - rewrite (member_own _ _ _ Hown). exact (Hprev _ Hin).
Qed.

Lemma check_string_any (minLength maxLength : option nat) (v : value) :
  check (TString minLength maxLength) v = true ->
  check (TString None None) v = true.
Proof. destruct v; cbn [check]; try discriminate. reflexivity. Qed.

Lemma required_string (o : object value) (k : string)
      (minLength maxLength : option nat) :
  propertyOk false (TString minLength maxLength) (member o k) = true ->
  forall opt, propertyOk opt (TString None None) (member o k) = true.
Proof.
  unfold propertyOk. intros H opt.
  apply check_string_any in H.
  destruct opt, (member o k); try exact H; reflexivity.
Qed.

Ltac split_body H :=
  rewrite check_object in H; cbn [forallb fst snd required Optional] in H;
  repeat (apply andb_true_iff in H; destruct H as [? H]).

Ltac event_cases H :=
  apply orb_true_iff in H; destruct H as [H | H];
  [ | first [discriminate H | event_cases H] ].

Ltac named H :=
  apply String.eqb_eq in H; cbn [String.append] in H.

(** The state after an update is valid when the state before was and the
    written fields fit. *)
Ltac update_valid Hname Hprev :=
  let o := fresh "o" in
  let Hcheck := fresh "Hcheck" in
  let Hwf := fresh "Hwf" in
  destruct Hprev as [Hcheck (o & -> & Hwf)];
  unfold Article.articleReducer; rewrite Hname; simpl switch;
  split;
  [ eapply check_updated;
    [ apply spread_then_write, Hwf | exact Hcheck | ]
  | eexists; split; [reflexivity | apply wellFormed_literal] ].

Ltac written_field Hk Hin :=
  cbn [rev app own] in Hk;
  repeat match type of Hk with
         | (if String.eqb ?a ?k then _ else _) = _ =>
             destruct (String.eqb_spec a k) as [<- | ?]
         end;
  try discriminate Hk;
  injection Hk as <-;
  cbn [Article.stateDefinition In required Optional] in Hin;
  repeat (destruct Hin as [Hin | Hin];
          [ try (injection Hin as <- <-); try discriminate Hin;
            try congruence | ]);
  try contradiction.

Ltac update_case Hname Hbody Hnot s :=
  let Hprev := fresh "Hprev" in
  let k := fresh "k" in
  let v := fresh "v" in
  let opt := fresh "opt" in
  let t := fresh "t" in
  let Hk := fresh "Hk" in
  let Hin := fresh "Hin" in
  split_body Hbody;
  assert (Hprev : Article.validState s)
    by (apply Hnot; rewrite Hname; discriminate);
  update_valid Hname Hprev;
  intros k v opt t Hk Hin;
  written_field Hk Hin;
  first [ reflexivity | assumption
        | eapply required_string; eassumption ].

(** One step: the state made of a valid event is valid, when the event is
    [article:created] or the state before was valid. *)
Lemma articleReducer_valid (s : Article.State) (e : Article.Event) :
  Article.validEvent e = true ->
  Types.eventName e = "article:created" \/ Article.validState s ->
  Article.validState (Article.articleReducer s e).
Proof.
  unfold Article.validEvent. cbn [existsb Article.eventDefinition].
  intros Hvalid Hstart.
  assert (Hnot : Types.eventName e <> "article:created" ->
                 Article.validState s).
  { intros Hne. destruct Hstart as [H|H]; [contradiction | exact H]. }
  clear Hstart.
  event_cases Hvalid;
    apply andb_true_iff in Hvalid; destruct Hvalid as [Hname Hbody];
    named Hname.
  - (* created *)
    split_body Hbody.
    unfold Article.articleReducer. rewrite Hname. simpl switch.
    split.
    + unfold Article.stateDefinition. rewrite check_object.
      cbn [forallb fst snd required Optional literal fold_left JS.set
           String.eqb Ascii.eqb Bool.eqb member get own inherited existsb
           Object_prototype orb].
      repeat (apply andb_true_iff; split); try reflexivity;
        try (eapply required_string; eassumption).
      assumption.
    + eexists. split; [reflexivity | apply wellFormed_literal].
  - update_case Hname Hbody Hnot s.
  - update_case Hname Hbody Hnot s.
  - update_case Hname Hbody Hnot s.
  - update_case Hname Hbody Hnot s.
  - update_case Hname Hbody Hnot s.
  - update_case Hname Hbody Hnot s.
  - update_case Hname Hbody Hnot s.
Qed.

(** X3: replaying a history that starts with [article:created] and whose
    events each pass a validator of the schema gives a state that passes
    the state validator. *)
Theorem replay_valid (first : Article.Event) (rest : list Article.Event) :
  Types.eventName first = "article:created" ->
  Forall (fun e => Article.validEvent e = true) (first :: rest) ->
  Article.validState (Article.replay (first :: rest)).
Proof.
  intros Hname Hall. inversion Hall as [|? ? Hfirst Hrest]; subst.
  unfold Article.replay. cbn [fold_left].
  assert (Hstart : Article.validState
                     (Article.articleReducer VUndefined first))
    by (apply articleReducer_valid; [exact Hfirst | now left]).
  clear Hall Hfirst Hname.
  revert Hstart. generalize (Article.articleReducer VUndefined first).
  induction Hrest as [|e rest He _ IH]; intros s Hs; cbn [fold_left].
  - exact Hs.
  - apply IH, articleReducer_valid; [exact He | now right].
Qed.

Lemma replay_valid_witness :
  Types.eventName Scenario.created = "article:created" /\
  Forall (fun e => Article.validEvent e = true)
         (Scenario.created :: [Scenario.titleUpdated]) /\
  Article.validState
    (Article.replay (Scenario.created :: [Scenario.titleUpdated])).
Proof.
  assert (Hall : Forall (fun e => Article.validEvent e = true)
                        (Scenario.created :: [Scenario.titleUpdated]))
    by (repeat constructor).
  split; [reflexivity | split; [exact Hall |]].
  exact (replay_valid Scenario.created [Scenario.titleUpdated] eq_refl Hall).
Defined.

(** ** [standard]: error messages and agreement of the parsers *)

Lemma concat_lines (sep first : string) (rest : list string) :
  String.concat sep (first :: rest)
  = (first ++ String.concat "" (map (fun l => sep ++ l) rest))%string.
Proof.
  revert first. induction rest as [|next rest IH]; intros first.
  - cbn. symmetry. apply append_empty.
  - change (String.concat sep (first :: next :: rest))
      with (first ++ sep ++ String.concat sep (next :: rest))%string.
    rewrite (IH next). cbn [map].
    destruct rest as [|third rest].
    + cbn. rewrite !append_empty. reflexivity.
    + change (String.concat "" ((sep ++ next)%string :: map (fun l => (sep ++ l)%string) (third :: rest)))
        with ((sep ++ next) ++ "" ++
              String.concat "" (map (fun l => (sep ++ l)%string) (third :: rest)))%string.
      cbn [String.append]. rewrite append_assoc. reflexivity.
Qed.

Lemma headed_lines (head sep first : string) (rest : list string) :
  first <> EmptyString ->
  (if String.eqb (String.concat sep (first :: rest)) ""
   then head
   else head ++ sep ++ String.concat sep (first :: rest))%string
  = (head ++ String.concat "" (map (fun l => sep ++ l) (first :: rest)))%string.
Proof.
  intros Hfirst. cbn [map].
  rewrite (concat_lines "" (sep ++ first)), map_map, (concat_lines sep first).
  replace (map (fun l => ("" ++ sep ++ l)%string) rest)
    with (map (fun l => (sep ++ l)%string) rest)
    by (apply map_ext; reflexivity).
  rewrite !append_assoc.
  destruct first as [|c first]; [congruence|].
  cbn [String.append String.eqb]. reflexivity.
Qed.

(** X4: the message of a validation failure is the header, which names the
    event when a non-empty event name is given, followed by one line per
    issue, [  - path: message], each on a line of its own; a failure with
    no issue at all still has the header as its message. *)
Theorem formatStandardSchemaIssues_lines
        (issues : list StandardSchemaV1.Issue) (eventName : option string) :
  Standard.formatStandardSchemaIssues issues eventName
  = (Standard.header eventName ++
     String.concat ""
       (map (fun issue => newline ++ Standard.issueLine issue) issues))%string.
Proof.
  change (Standard.formatStandardSchemaIssues issues eventName)
    with (let errors := String.concat newline (map Standard.issueLine issues) in
          if String.eqb errors "" then Standard.header eventName
          else (Standard.header eventName ++ newline ++ errors)%string).
  cbv zeta.
  destruct issues as [|issue issues].
  - cbn. symmetry. apply append_empty.
  - cbn [map]. rewrite headed_lines by (unfold Standard.issueLine; discriminate).
    cbn [map]. rewrite map_map. reflexivity.
Qed.

Lemma own_Some_In {A} (o : object A) (k : string) (a : A) :
  own o k = Some a -> In (k, a) o.
Proof.
  induction o as [|[k' a'] o IH]; simpl; [discriminate|].
  destruct (String.eqb_spec k' k) as [->|Hne].
  - intros [= ->]. now left.
  - intros H. right. apply IH, H.
Qed.

Lemma In_own {A} (o : object A) (k : string) (a : A) :
  wellFormed o -> In (k, a) o -> own o k = Some a.
Proof.
  unfold wellFormed. induction o as [|[k' a'] o IH]; simpl; [intros _ []|].
  intros Hnd [[= -> ->]|Hin].
  - rewrite String.eqb_refl. reflexivity.
  - inversion Hnd as [|? ? Hnotin Hnd']; subst.
    destruct (String.eqb_spec k' k) as [->|Hne].
    + exfalso. apply Hnotin. apply (in_map fst) in Hin. exact Hin.
    + apply IH; assumption.
Qed.

Lemma Object_values_In {A} (o : object A) (a : A) :
  In a (Object_values o) <-> exists k, In (k, a) o.
Proof.
  unfold Object_values. rewrite in_map_iff. split.
  - intros [[k a'] [Heq Hin]]. simpl in Heq. subst a'. exists k.
    eapply Permutation_in; [apply Object_entries_perm | exact Hin].
  - intros [k Hin]. exists (k, a). split; [reflexivity|].
    eapply Permutation_in; [apply Permutation_sym, Object_entries_perm | exact Hin].
Qed.

(** Validation returns a value exactly when the validator answered, at
    once, with that value; the event name plays no part in it. *)
Lemma standardValidate_Ok {Input Output}
      (schema : StandardSchemaV1.Schema Input Output) input name value :
  Standard.standardValidate schema input name = Ok value <->
  StandardSchemaV1.validate schema input
  = StandardSchemaV1.Sync (StandardSchemaV1.Success value).
Proof.
  unfold Standard.standardValidate.
  destruct (StandardSchemaV1.validate schema input) as [[v|issues]|p];
    split; intros H; try discriminate H; try (injection H as ->; reflexivity).
Qed.

Section Parsers.
Variables EventInput StateInput EventType StateType Context : Type.
Variable args : Standard.Args EventInput StateInput EventType StateType.
Variable context : Context.

Lemma parseEventByName_Ok name input value :
  Standard.parseEventByName (Standard.standard args context) name input
  = Ok value ->
  exists schema,
    own (Standard.event args) name = Some schema /\
    StandardSchemaV1.validate schema input
    = StandardSchemaV1.Sync (StandardSchemaV1.Success value).
Proof.
  simpl. unfold get.
  destruct (own (Standard.event args) name) as [schema|].
  - intros H. exists schema. split; [reflexivity|].
    apply standardValidate_Ok in H. exact H.
  - destruct (inherited name); discriminate.
Qed.

Lemma parseEvent_Ok input value :
  Standard.parseEvent (Standard.standard args context) input = Ok value ->
  exists schema,
    In schema (Object_values (Standard.event args)) /\
    StandardSchemaV1.validate schema input
    = StandardSchemaV1.Sync (StandardSchemaV1.Success value).
Proof.
  simpl. intros H.
  destruct (parseEvent_loop_total _ _ (Object_values (Standard.event args)) input)
    as [(before & schema & after & v & Heq & _ & Hv & Hr) | [_ Hr]];
    rewrite Hr in H; [|discriminate H].
  injection H as ->. exists schema. split.
  - rewrite Heq. apply in_or_app. right. now left.
  - apply standardValidate_Ok in Hv. exact Hv.
Qed.

(** X5: the three parsers return only what a validator of the schema
    produced: [parseEventByName] the value of the validator registered
    under that very name (so never anything for a name that is not
    registered), [parseEvent] the value of one of the registered event
    validators, [parseState] the value of the state validator. *)
Theorem parsers_return_validated_values :
  (forall name input value,
      Standard.parseEventByName (Standard.standard args context) name input
      = Ok value ->
      exists schema,
        own (Standard.event args) name = Some schema /\
        StandardSchemaV1.validate schema input
        = StandardSchemaV1.Sync (StandardSchemaV1.Success value)) /\
  (forall input value,
      Standard.parseEvent (Standard.standard args context) input = Ok value ->
      exists name schema,
        In (name, schema) (Standard.event args) /\
        StandardSchemaV1.validate schema input
        = StandardSchemaV1.Sync (StandardSchemaV1.Success value)) /\
  (forall input value,
      Standard.parseState (Standard.standard args context) input = Ok value ->
      StandardSchemaV1.validate (Standard.state args) input
      = StandardSchemaV1.Sync (StandardSchemaV1.Success value)).
Proof.
  repeat split.
  - apply parseEventByName_Ok.
  - intros input value H.
    destruct (parseEvent_Ok _ _ H) as (schema & Hin & Hv).
    apply Object_values_In in Hin. destruct Hin as [name Hin].
    exists name, schema. split; assumption.
  - intros input value H. simpl in H.
    apply standardValidate_Ok in H. exact H.
Qed.

(** X6: on an event map, [parseEvent] and [parseEventByName] accept the
    same inputs: an input that [parseEvent] accepts is accepted, with the
    same value, by [parseEventByName] under some registered name, and an
    input that [parseEventByName] accepts under some name is accepted by
    [parseEvent], which returns the value of the first validator, in the
    order of [Object.values] of the event map, that accepts the input:
    every validator before that one fails on it. *)
Theorem parseEvent_accepts_what_some_name_accepts (input : EventInput) :
  wellFormed (Standard.event args) ->
  (forall value,
      Standard.parseEvent (Standard.standard args context) input = Ok value ->
      exists name,
        Standard.parseEventByName (Standard.standard args context) name input
        = Ok value) /\
  (forall name value,
      Standard.parseEventByName (Standard.standard args context) name input
      = Ok value ->
      exists before schema after value',
        Object_values (Standard.event args)
        = (before ++ schema :: after)%list /\
        (forall s, In s before -> Standard.fails s input) /\
        StandardSchemaV1.validate schema input
        = StandardSchemaV1.Sync (StandardSchemaV1.Success value') /\
        Standard.parseEvent (Standard.standard args context) input
        = Ok value').
Proof.
  intros Hwf. split.
  - intros value H.
    destruct (parseEvent_Ok _ _ H) as (schema & Hin & Hv).
    apply Object_values_In in Hin. destruct Hin as [name Hin].
    exists name.
    apply (parseEventByName_registered_success _ _ _ _ _ args context
             name schema input value); [|exact Hv].
    apply In_own; assumption.
  - intros name value H.
    destruct (parseEventByName_Ok _ _ _ H) as (schema & Hown & Hv).
    simpl.
    destruct (parseEvent_loop_total _ _ (Object_values (Standard.event args)) input)
      as [(before & first & after & v & Heq & Hbefore & Hfirst & Hr)
         | [Hall _]].
    + exists before, first, after, v. repeat split; try assumption.
      apply (standardValidate_Ok first input None). exact Hfirst.
    + exfalso. destruct (Hall schema) as [err Herr].
      * apply Object_values_In. exists name. apply own_Some_In, Hown.
      * apply (standardValidate_Ok schema input None) in Hv.
        rewrite Hv in Herr. discriminate Herr.
Qed.

End Parsers.

(** X7: a provider whose schemas all come from [typeboxToStandardSchema]
    never changes what it validates: whatever [parseEvent],
    [parseEventByName] or [parseState] returns is the input itself. *)
Theorem typebox_parsers_return_their_input
        {Event State Context : Type}
        (args : Standard.Args Event State Event State) (context : Context) :
  (forall name schema,
      In (name, schema) (Standard.event args) ->
      exists validator, schema = typeboxToStandardSchema validator) ->
  (exists validator, Standard.state args = typeboxToStandardSchema validator) ->
  (forall input value,
      Standard.parseEvent (Standard.standard args context) input = Ok value ->
      value = input) /\
  (forall name input value,
      Standard.parseEventByName (Standard.standard args context) name input
      = Ok value ->
      value = input) /\
  (forall input value,
      Standard.parseState (Standard.standard args context) input = Ok value ->
      value = input).
Proof.
  intros Hevent [stateValidator Hstate].
  assert (Hsame : forall V (validator : Validator V) input value,
             StandardSchemaV1.validate (typeboxToStandardSchema validator) input
             = StandardSchemaV1.Sync (StandardSchemaV1.Success value) ->
             value = input).
  { intros V validator input value. simpl. unfold validate.
    destruct (Check validator input); [|discriminate].
    intros [= ->]. reflexivity. }
  repeat split.
  - intros input value H.
    destruct (parseEvent_Ok _ _ _ _ _ _ _ _ _ H) as (schema & Hin & Hv).
    apply Object_values_In in Hin. destruct Hin as [name Hin].
    destruct (Hevent name schema Hin) as [validator ->].
    apply (Hsame _ _ _ _ Hv).
  - intros name input value H.
    destruct (parseEventByName_Ok _ _ _ _ _ _ _ _ _ _ H) as (schema & Hown & Hv).
    destruct (Hevent name schema (own_Some_In _ _ _ Hown)) as [validator ->].
    apply (Hsame _ _ _ _ Hv).
  - intros input value H. simpl in H.
    apply standardValidate_Ok in H. rewrite Hstate in H.
    apply (Hsame _ _ _ _ H).
Qed.

(** ** The prisma adapter: rows, failures, and reading back a commit *)

Lemma newDate_formatUTC (parseOther : string -> option Z) (t : Z) :
  fourDigitYear t -> newDate parseOther (formatUTC t) = Some t.
Proof.
  intros Ht. unfold newDate. rewrite (parseUTC_formatUTC t Ht).
  unfold TimeClip, maxTime.
  replace (Z.abs t <=? 8640000000000000)%Z with true
    by (symmetry; apply Z.leb_le; unfold fourDigitYear in Ht; lia).
  reflexivity.
Qed.

(** X8: the six columns the adapter reads of a stored row are given back
    unchanged by the two conversions: for a row whose date is valid and
    has a four-digit year, [rowToEvent] succeeds, and [eventToRow] of the
    event it makes has the row's [eventId], [eventName], [entityId],
    [entityName], [eventCreatedAt] and [body], whatever the engine makes
    of other date strings.  Only these six columns are compared: the
    adapter reads no other column of a stored row and writes no other. *)
Theorem eventToRow_rowToEvent
        {Body : Type} (parseOther : string -> option Z)
        (row : BaseEventTypeRow Body) (t : Z) :
  eventCreatedAt row = Some t ->
  fourDigitYear t ->
  exists event,
    rowToEvent row = Ok event /\
    eventId (eventToRow parseOther event) = eventId row /\
    eventName (eventToRow parseOther event) = eventName row /\
    entityId (eventToRow parseOther event) = entityId row /\
    entityName (eventToRow parseOther event) = entityName row /\
    eventCreatedAt (eventToRow parseOther event) = eventCreatedAt row /\
    body (eventToRow parseOther event) = body row.
Proof.
  intros Hdate Ht. unfold rowToEvent. rewrite Hdate. cbn [toISOString bind].
  eexists. split; [reflexivity|].
  unfold eventToRow.
  cbn [eventId eventName entityId entityName eventCreatedAt body
       Types.eventId Types.eventName Types.entityId Types.entityName
       Types.eventCreatedAt Types.body].
  rewrite (newDate_formatUTC parseOther t Ht).
  repeat split.
Qed.

Lemma eventToRow_rowToEvent_witness :
  exists event,
    rowToEvent
      {| eventId := "c4b7e1d2-event"; eventName := "article:created";
         entityId := "article-1"; entityName := "article";
         eventCreatedAt := Some 1705314600000%Z;
         body := Scenario.initialBody |}
    = Ok event /\
    eventId (eventToRow Scenario.lenientEngine event) = "c4b7e1d2-event" /\
    eventName (eventToRow Scenario.lenientEngine event) = "article:created" /\
    entityId (eventToRow Scenario.lenientEngine event) = "article-1" /\
    entityName (eventToRow Scenario.lenientEngine event) = "article" /\
    eventCreatedAt (eventToRow Scenario.lenientEngine event)
    = Some 1705314600000%Z /\
    body (eventToRow Scenario.lenientEngine event) = Scenario.initialBody.
Proof.
  apply (eventToRow_rowToEvent Scenario.lenientEngine
           {| eventId := "c4b7e1d2-event"; eventName := "article:created";
              entityId := "article-1"; entityName := "article";
              eventCreatedAt := Some 1705314600000%Z;
              body := Scenario.initialBody |} 1705314600000%Z).
  - reflexivity.
  - unfold fourDigitYear. lia.
Defined.

(** X9: storing an event and reading it back changes at most its
    timestamp, which becomes the ISO form of the date the engine read, and
    what was read back is stable: it is stored as the same row and read
    back as itself. *)
Theorem stored_event_is_normalised_once
        {Body : Type} (parseOther : string -> option Z)
        (event : BaseEventType Body) (t : Z) :
  newDate parseOther (Types.eventCreatedAt event) = Some t ->
  fourDigitYear t ->
  let stored :=
    {| Types.eventId := Types.eventId event;
       Types.eventName := Types.eventName event;
       Types.entityId := Types.entityId event;
       Types.entityName := Types.entityName event;
       Types.eventCreatedAt := formatUTC t;
       Types.body := Types.body event |} in
  rowToEvent (eventToRow parseOther event) = Ok stored /\
  eventToRow parseOther stored = eventToRow parseOther event /\
  rowToEvent (eventToRow parseOther stored) = Ok stored.
Proof.
  intros Hdate Ht stored.
  assert (Hread : rowToEvent (eventToRow parseOther event) = Ok stored).
  { unfold rowToEvent, eventToRow.
    cbn [eventCreatedAt eventId eventName entityId entityName body].
    rewrite Hdate. reflexivity. }
  assert (Hrow : eventToRow parseOther stored = eventToRow parseOther event).
  { unfold eventToRow, stored.
    cbn [Types.eventId Types.eventName Types.entityId Types.entityName
         Types.eventCreatedAt Types.body].
    rewrite (newDate_formatUTC parseOther t Ht), Hdate. reflexivity. }
  split; [exact Hread | split; [exact Hrow |]].
  rewrite Hrow. exact Hread.
Qed.

Lemma stored_event_is_normalised_once_witness :
  rowToEvent
    (eventToRow Scenario.lenientEngine
       {| Types.eventId := "e-1"; Types.eventCreatedAt := "2024-01-15";
          Types.entityName := "article"; Types.entityId := "article-1";
          Types.eventName := "article:unarchived";
          Types.body := @nil (string * value) |})
  = Ok {| Types.eventId := "e-1";
          Types.eventName := "article:unarchived";
          Types.entityId := "article-1"; Types.entityName := "article";
          Types.eventCreatedAt := formatUTC 1705276800000%Z;
          Types.body := @nil (string * value) |}.
Proof.
  refine (proj1 (stored_event_is_normalised_once Scenario.lenientEngine
                   {| Types.eventId := "e-1";
                      Types.eventCreatedAt := "2024-01-15";
                      Types.entityName := "article";
                      Types.entityId := "article-1";
                      Types.eventName := "article:unarchived";
                      Types.body := @nil (string * value) |}
                   1705276800000%Z _ _)).
  - reflexivity.
  - unfold fourDigitYear. lia.
Defined.

Lemma mapM_app {A B} (f : A -> result B) (l1 l2 : list A) (r1 r2 : list B) :
  mapM f l1 = Ok r1 -> mapM f l2 = Ok r2 ->
  mapM f (l1 ++ l2)%list = Ok (r1 ++ r2)%list.
Proof.
  revert r1. induction l1 as [|a l1 IH]; intros r1; cbn [mapM app].
  - intros [= <-] H2. exact H2.
  - destruct (f a) as [b|err]; cbn [bind]; [|discriminate].
    destruct (mapM f l1) as [bs|err]; cbn [bind]; [|discriminate].
    intros [= <-] H2. rewrite (IH bs eq_refl H2). reflexivity.
Qed.

Section AdapterReads.
Variables Body State SnapshotRow DB Query : Type.
Variable parseOther : string -> option Z.
Variable options : VentydAdapterOptions Body State SnapshotRow DB Query.

Lemma mapM_rowToEvent_invalid (rows : list (BaseEventTypeRow Body)) :
  (exists row, In row rows /\ eventCreatedAt row = None) ->
  mapM rowToEvent rows = Throw (RangeError "Invalid time value").
Proof.
  induction rows as [|row rows IH]; intros (bad & Hin & Hbad).
  - destruct Hin.
  - cbn [mapM]. unfold rowToEvent at 1.
    destruct (eventCreatedAt row) as [t|] eqn:Hdate; cbn [toISOString bind].
    + destruct Hin as [<-|Hin]; [congruence|].
      rewrite IH by (exists bad; split; assumption). reflexivity.
    + reflexivity.
Qed.

(** X10: [getEventsByEntityId] returns no partial list: when [findMany]
    rejects, it rejects with the same error, and when one of the rows
    [findMany] answers has an invalid date, wherever it stands, it rejects
    with the [RangeError] of [toISOString]. *)
Theorem getEventsByEntityId_rejects
        (entityName entityId : string) (db db' : DB) :
  (forall err,
      event_findMany options
        {| where_entityName := entityName; where_entityId := entityId |} db
      = (db', Throw err) ->
      getEventsByEntityId (prismaAdapter parseOther options)
        entityName entityId db = (db', Throw err)) /\
  (forall rows,
      event_findMany options
        {| where_entityName := entityName; where_entityId := entityId |} db
      = (db', Ok rows) ->
      (exists row, In row rows /\ eventCreatedAt row = None) ->
      getEventsByEntityId (prismaAdapter parseOther options)
        entityName entityId db
      = (db', Throw (RangeError "Invalid time value"))).
Proof.
  split.
  - intros err Hfind. cbn [getEventsByEntityId prismaAdapter].
    rewrite Hfind. reflexivity.
  - intros rows Hfind Hbad. cbn [getEventsByEntityId prismaAdapter].
    rewrite Hfind. cbn [bind].
    rewrite (mapM_rowToEvent_invalid rows Hbad). reflexivity.
Qed.

Lemma mapM_rowToEvent_stored (w : Where) (events : list (BaseEventType Body)) :
  Forall (fun event =>
            toISOString (newDate parseOther (Types.eventCreatedAt event))
            = Ok (Types.eventCreatedAt event)) events ->
  mapM rowToEvent (filter (asked w) (map (eventToRow parseOther) events))
  = Ok (filter (fun event =>
                  String.eqb (Types.entityName event) (where_entityName w) &&
                  String.eqb (Types.entityId event) (where_entityId w))
               events).
Proof.
  induction 1 as [|event events Hevent _ IH]; [reflexivity|].
  cbn [map filter].
  change (asked w (eventToRow parseOther event))
    with (String.eqb (Types.entityName event) (where_entityName w) &&
          String.eqb (Types.entityId event) (where_entityId w)).
  destruct (String.eqb (Types.entityName event) (where_entityName w) &&
            String.eqb (Types.entityId event) (where_entityId w)).
  - cbn [mapM]. rewrite IH.
    unfold rowToEvent, eventToRow.
    cbn [eventCreatedAt eventId eventName entityId entityName body].
    rewrite Hevent. destruct event. reflexivity.
  - exact IH.
Qed.

(** X11: with a client whose event table keeps insertion order, what
    [commitEvents] has written is what [getEventsByEntityId] reads: after
    a commit that resolved, the events of an entity are those read before
    the commit followed by the committed events of that entity, in the
    order they were committed and unchanged, provided the committed
    timestamps are in the form [toISOString] writes. *)
Theorem getEventsByEntityId_after_commitEvents
        (table : DB -> list (BaseEventTypeRow Body))
        (events before : list (BaseEventType Body))
        (committedId : string) (state : State)
        (entityName entityId : string) (db db' : DB) :
  InsertionOrdered options table ->
  Forall (fun event =>
            toISOString (newDate parseOther (Types.eventCreatedAt event))
            = Ok (Types.eventCreatedAt event)) events ->
  getEventsByEntityId (prismaAdapter parseOther options)
    entityName entityId db = (db, Ok before) ->
  commitEvents (prismaAdapter parseOther options)
    events committedId state db = (db', Ok tt) ->
  getEventsByEntityId (prismaAdapter parseOther options)
    entityName entityId db'
  = (db', Ok (before ++
              filter (fun event =>
                        String.eqb (Types.entityName event) entityName &&
                        String.eqb (Types.entityId event) entityId)
                     events)%list).
Proof.
  intros [Hread Hwrite] Hcanonical Hbefore Hcommit.
  cbn [getEventsByEntityId prismaAdapter] in Hbefore |- *.
  cbn [commitEvents prismaAdapter] in Hcommit.
  rewrite Hread in Hbefore |- *. cbn [bind] in Hbefore |- *.
  rewrite (Hwrite _ _ _ _ Hcommit), filter_app.
  assert (Hold : mapM rowToEvent
                   (filter (asked {| where_entityName := entityName;
                                     where_entityId := entityId |})
                           (table db)) = Ok before)
    by (injection Hbefore as H; exact H).
  f_equal.
  exact (mapM_app _ _ _ _ _ Hold
           (mapM_rowToEvent_stored
              {| where_entityName := entityName;
                 where_entityId := entityId |} events Hcanonical)).
Qed.

End AdapterReads.

Lemma memory_client_insertion_ordered
      {Body State SnapshotRow : Type}
      (entityToRow : string -> State -> SnapshotRow) :
  InsertionOrdered (MemoryPrisma.client (Body := Body) entityToRow)
                   MemoryPrisma.events.
Proof.
  split.
  - intros w db. reflexivity.
  - intros rows args db db'. cbn. unfold MemoryPrisma.transaction.
    cbn [runAll MemoryPrisma.run].
    destruct (_ && _)%bool; [|discriminate].
    intros [= <-]. reflexivity.
Qed.

Lemma getEventsByEntityId_rejects_witness :
  getEventsByEntityId
    (prismaAdapter Scenario.strictEngine Article.prisma) "article" "article-1"
    {| MemoryPrisma.events :=
         [ eventToRow Scenario.strictEngine Scenario.created;
           {| eventId := "e-2"; eventName := "article:unarchived";
              entityId := "article-1"; entityName := "article";
              eventCreatedAt := None; body := [] |} ];
       MemoryPrisma.snapshots := [] |}
  = ({| MemoryPrisma.events :=
          [ eventToRow Scenario.strictEngine Scenario.created;
            {| eventId := "e-2"; eventName := "article:unarchived";
               entityId := "article-1"; entityName := "article";
               eventCreatedAt := None; body := [] |} ];
        MemoryPrisma.snapshots := [] |},
     Throw (RangeError "Invalid time value")).
Proof.
  refine (proj2 (getEventsByEntityId_rejects _ _ _ _ _
                   Scenario.strictEngine Article.prisma
                   "article" "article-1" _ _) _ eq_refl _).
  eexists. split; [right; left; reflexivity | reflexivity].
Defined.

Lemma getEventsByEntityId_after_commitEvents_witness :
  getEventsByEntityId
    (prismaAdapter Scenario.strictEngine Article.prisma) "article" "article-1"
    Scenario.twoEvents
  = (Scenario.twoEvents, Ok [Scenario.created; Scenario.titleUpdated]).
Proof.
  refine (getEventsByEntityId_after_commitEvents _ _ _ _ _
            Scenario.strictEngine Article.prisma MemoryPrisma.events
            [Scenario.created; Scenario.titleUpdated] []
            "article-1" Scenario.nineFields "article" "article-1"
            MemoryPrisma.empty Scenario.twoEvents _ _ _ _).
  - apply memory_client_insertion_ordered.
  - repeat constructor.
  - reflexivity.
  - reflexivity.
Defined.

(** ** The arktype provider *)

Lemma append_inj (prefix a b : string) :
  (prefix ++ a)%string = (prefix ++ b)%string -> a = b.
Proof.
  induction prefix as [|c prefix IH]; cbn [String.append]; intros H.
  - exact H.
  - injection H as H. apply IH, H.
Qed.

Section ArktypeProvider.
Variables BodyType EventInput StateInput EventType StateType : Type.
Variable type :
  string -> BodyType -> StandardSchemaV1.Schema EventInput EventType.
Variable args : Arktype.Args BodyType StateInput StateType.
Variable context : Arktype.Context.

Lemma namespaced_inj (key key' : string) :
  Arktype.namespaced args context key = Arktype.namespaced args context key' ->
  key = key'.
Proof.
  unfold Arktype.namespaced. intros H.
  apply append_inj in H. apply append_inj in H. exact H.
Qed.

Lemma namespaced_eqb (key key' : string) :
  String.eqb (Arktype.namespaced args context key)
             (Arktype.namespaced args context key')
  = String.eqb key key'.
Proof.
  destruct (String.eqb_spec key key') as [->|Hne].
  - apply String.eqb_refl.
  - apply String.eqb_neq. intros H. apply Hne, namespaced_inj, H.
Qed.

Lemma arktype_fold (entries : list (string * BodyType)) :
  forall (acc : object (StandardSchemaV1.Schema EventInput EventType)) name,
    wellFormed acc ->
    own (fold_left
           (fun acc '(key, body) =>
              let eventName := Arktype.namespaced args context key in
              let arktypeSchema := type eventName body in
              literal (Object_entries acc ++ [(eventName, arktypeSchema)]))
           entries acc) name
    = match own (rev (map (fun '(key, body) =>
                             (Arktype.namespaced args context key,
                              type (Arktype.namespaced args context key) body))
                          entries)) name with
      | Some schema => Some schema
      | None => own acc name
      end.
Proof.
  induction entries as [|[key body] entries IH]; intros acc name Hacc.
  - reflexivity.
  - cbn [fold_left map rev]. rewrite IH by apply wellFormed_literal.
    rewrite own_app.
    destruct (own (rev _) name) as [schema|]; [reflexivity|].
    rewrite own_literal, rev_app_distr. cbn [rev app own].
    destruct (String.eqb _ name); [reflexivity|].
    rewrite own_rev by (apply wellFormed_Object_entries, Hacc).
    apply own_Object_entries, Hacc.
Qed.

Lemma own_registered (entries : list (string * BodyType)) (key : string) :
  own (map (fun '(key, body) =>
              (Arktype.namespaced args context key,
               type (Arktype.namespaced args context key) body))
           entries) (Arktype.namespaced args context key)
  = option_map (type (Arktype.namespaced args context key)) (own entries key).
Proof.
  induction entries as [|[key' body] entries IH]; [reflexivity|].
  cbn [map own]. rewrite namespaced_eqb.
  destruct (String.eqb_spec key' key) as [->|_]; [reflexivity | exact IH].
Qed.

Lemma own_registered_inv (entries : list (string * BodyType)) (name : string)
      (schema : StandardSchemaV1.Schema EventInput EventType) :
  own (map (fun '(key, body) =>
              (Arktype.namespaced args context key,
               type (Arktype.namespaced args context key) body))
           entries) name = Some schema ->
  exists key body,
    name = Arktype.namespaced args context key /\
    own entries key = Some body /\
    schema = type name body.
Proof.
  induction entries as [|[key' body] entries IH]; [discriminate|].
  cbn [map own].
  destruct (String.eqb_spec (Arktype.namespaced args context key') name)
    as [<-|Hne].
  - intros [= <-]. exists key', body.
    rewrite String.eqb_refl. repeat split.
  - intros H. destruct (IH H) as (key & body' & -> & Hown & ->).
    exists key, body'. repeat split.
    destruct (String.eqb_spec key' key) as [->|_]; [congruence | exact Hown].
Qed.

Lemma registered_wellFormed (entries : list (string * BodyType)) :
  wellFormed entries ->
  wellFormed (map (fun '(key, body) =>
                     (Arktype.namespaced args context key,
                      type (Arktype.namespaced args context key) body))
                  entries).
Proof.
  unfold wellFormed. rewrite map_map.
  induction entries as [|[key body] entries IH]; cbn [map fst];
    intros Hnd; [constructor|].
  inversion Hnd as [|? ? Hnotin Hnd']; subst.
  constructor; [|apply IH, Hnd'].
  rewrite in_map_iff. intros [[key' body'] [Heq Hin]]. cbn [fst] in Heq.
  apply namespaced_inj in Heq. subst key'.
  apply Hnotin. apply (in_map fst) in Hin. exact Hin.
Qed.

Lemma eventSchema_own (name : string) :
  wellFormed (Arktype.event args) ->
  own (Arktype.eventSchema type args context) name
  = own (map (fun '(key, body) =>
                (Arktype.namespaced args context key,
                 type (Arktype.namespaced args context key) body))
             (Object_entries (Arktype.event args))) name.
Proof.
  intros Hwf. unfold Arktype.eventSchema.
  rewrite arktype_fold by constructor.
  rewrite own_rev
    by (apply registered_wellFormed, wellFormed_Object_entries, Hwf).
  destruct (own _ name); reflexivity.
Qed.

(** X12: the event map the arktype provider builds has exactly the
    namespaced names: the event type declared under [key] is registered
    under [entityName ++ separator ++ key] (the separator is [":"] when
    none is given) with the schema [type] makes for that name and that
    body, and [parseEventByName] on that name validates with that schema;
    nothing else is registered. *)
Theorem arktype_registers_namespaced_events :
  wellFormed (Arktype.event args) ->
  (forall key body,
      own (Arktype.event args) key = Some body ->
      let name := Arktype.namespaced args context key in
      own (Arktype.provided_event (Arktype.arktype type args context)) name
      = Some (type name body) /\
      forall input,
        Standard.parseEventByName
          (Arktype.provided_parsers (Arktype.arktype type args context))
          name input
        = Standard.standardValidate (type name body) input (Some name)) /\
  (forall name schema,
      own (Arktype.provided_event (Arktype.arktype type args context)) name
      = Some schema ->
      exists key body,
        name = Arktype.namespaced args context key /\
        own (Arktype.event args) key = Some body /\
        schema = type name body).
Proof.
  intros Hwf. split.
  - intros key body Hown name.
    assert (Hreg : own (Arktype.eventSchema type args context) name
                   = Some (type name body)).
    { rewrite eventSchema_own by exact Hwf. unfold name.
      rewrite own_registered, own_Object_entries by exact Hwf.
      rewrite Hown. reflexivity. }
    split; [exact Hreg|].
    intros input. cbn [Arktype.arktype Arktype.provided_parsers].
    apply parseEventByName_registered. exact Hreg.
  - intros name schema Hreg.
    cbn [Arktype.arktype Arktype.provided_event] in Hreg.
    rewrite eventSchema_own in Hreg by exact Hwf.
    destruct (own_registered_inv _ _ _ Hreg) as (key & body & Hname & Hown & Hs).
    exists key, body. repeat split; try assumption.
    rewrite own_Object_entries in Hown by exact Hwf. exact Hown.
Qed.

End ArktypeProvider.

Lemma arktype_registers_namespaced_events_witness :
  own (Arktype.provided_event
         (Arktype.arktype Scenario.envelope Scenario.orderEvents
            {| Arktype.entityName := "order" |})) "order:placed"
  = Some (Scenario.envelope "order:placed" Scenario.accepting).
Proof.
  refine (proj1 (proj1 (arktype_registers_namespaced_events _ _ _ _ _
                          Scenario.envelope Scenario.orderEvents
                          {| Arktype.entityName := "order" |} _)
                       "placed" Scenario.accepting eq_refl)).
  repeat constructor; cbn; intuition discriminate.
Defined.

(** ** The article class: getters and guards *)

Section ArticleClass.
Variable Errors : forall Value : Type,
    TypeBox.TSchema -> Value -> list TypeboxStandard.TLocalizedValidationError.

Lemma isArchived_of_object (this : Article.Article) (o : object value) :
  Entity.state_ this = Some (VObj o) ->
  Article.isArchived this = Ok (member o "isArchived").
Proof.
  intros Hs. unfold Article.isArchived, Article.field, Entity.state.
  rewrite Hs. reflexivity.
Qed.

(** X13: on an article that has a state, the getters are consistent:
    [isDraft] is [canPublish]; [canPublish] and [canUnpublish] never hold
    together; and [canEdit] holds exactly when one of the two does, so an
    archived article can be neither edited, published nor unpublished. *)
Theorem getters_agree (this : Article.Article) (o : object value) :
  Entity.state_ this = Some (VObj o) ->
  exists canPublish canUnpublish,
    Article.canPublish this = Ok canPublish /\
    Article.canUnpublish this = Ok canUnpublish /\
    Article.isDraft this = Ok canPublish /\
    Article.canEdit this = Ok (xorb canPublish canUnpublish) /\
    canPublish && canUnpublish = false /\
    (truthy (member o "isArchived") = true ->
     canPublish = false /\ canUnpublish = false).
Proof.
  intros Hs.
  unfold Article.canPublish, Article.canUnpublish, Article.isDraft,
    Article.canEdit.
  rewrite (isPublished_of_object this o Hs), (isArchived_of_object this o Hs).
  cbn [bind].
  destruct (truthy (member o "isPublished")),
           (truthy (member o "isArchived")); cbn [negb bind];
    eexists; eexists; repeat split; try reflexivity; discriminate.
Qed.

(** X14: a mutable article rejects the step that its state does not
    allow, with an error of its own and before anything is dispatched (the
    article is returned as it was).  [publish] throws "Cannot publish
    archived article" when the article is archived and "Article is already
    published" when it is published and not archived; [unpublish] throws
    "Cannot unpublish archived article" when the article is archived and
    "Article is not published" when it is neither published nor archived;
    [archive] throws "Article is already archived" when the article is
    archived; [unarchive] throws "Article is not archived" when it is
    not. *)
Theorem wrong_state_is_rejected
        (amb : Entity.Ambient) (this : Article.Article) (o : object value) :
  Entity.readonly this = false ->
  Entity.state_ this = Some (VObj o) ->
  (truthy (member o "isArchived") = true ->
   forall today,
     Article.publish Errors amb today this
     = (this, Throw (Error "Cannot publish archived article"))) /\
  (truthy (member o "isArchived") = false ->
   truthy (member o "isPublished") = true ->
   forall today,
     Article.publish Errors amb today this
     = (this, Throw (Error "Article is already published"))) /\
  (truthy (member o "isArchived") = true ->
   forall reason,
     Article.unpublish Errors amb reason this
     = (this, Throw (Error "Cannot unpublish archived article"))) /\
  (truthy (member o "isArchived") = false ->
   truthy (member o "isPublished") = false ->
   forall reason,
     Article.unpublish Errors amb reason this
     = (this, Throw (Error "Article is not published"))) /\
  (truthy (member o "isArchived") = true ->
   forall reason,
     Article.archive Errors amb reason this
     = (this, Throw (Error "Article is already archived"))) /\
  (truthy (member o "isArchived") = false ->
   Article.unarchive Errors amb tt this
   = (this, Throw (Error "Article is not archived"))).
Proof.
  intros Hmutable Hs.
  pose proof (isPublished_of_object this o Hs) as Hp.
  pose proof (isArchived_of_object this o Hs) as Ha.
  repeat split.
  - intros Harchived today.
    unfold Article.publish, Article.mutation, Entity.mutation.
    rewrite Hmutable. unfold Article.canPublish.
    rewrite Hp, Ha. cbn [bind].
    destruct (truthy (member o "isPublished")); cbn [negb bind];
      cbv beta iota; rewrite Harchived; reflexivity.
  - intros Harchived Hpublished today.
    unfold Article.publish, Article.mutation, Entity.mutation.
    rewrite Hmutable. unfold Article.canPublish.
    rewrite Hp, Ha. cbn [bind]. rewrite Hpublished.
    cbn [negb]. cbv beta iota. rewrite Harchived. reflexivity.
  - intros Harchived reason.
    unfold Article.unpublish, Article.mutation, Entity.mutation.
    rewrite Hmutable. unfold Article.canUnpublish.
    rewrite Hp, Ha. cbn [bind].
    destruct (truthy (member o "isPublished")); cbn [negb bind];
      cbv beta iota; rewrite Harchived; reflexivity.
  - intros Harchived Hpublished reason.
    unfold Article.unpublish, Article.mutation, Entity.mutation.
    rewrite Hmutable. unfold Article.canUnpublish.
    rewrite Hp, Ha. cbn [bind]. rewrite Hpublished.
    cbv beta iota. rewrite Harchived. reflexivity.
  - intros Harchived reason.
    unfold Article.archive, Article.mutation, Entity.mutation.
    rewrite Hmutable, Ha. cbv beta iota. rewrite Harchived. reflexivity.
  - intros Harchived.
    unfold Article.unarchive, Article.mutation, Entity.mutation.
    rewrite Hmutable, Ha. cbv beta iota. rewrite Harchived. reflexivity.
Qed.

Lemma title_valid (title : string) (e : Article.Event) :
  Types.eventName e = "article:title_updated" ->
  Types.body e = [("title", VStr title)] ->
  Article.validEvent e
  = Nat.leb 1 (String.length title) && Nat.leb (String.length title) 200.
Proof.
  intros Hname Hbody. unfold Article.validEvent. rewrite Hname, Hbody.
  cbn -[Nat.leb String.length].
  destruct (Nat.leb 1 _), (Nat.leb _ 200); reflexivity.
Qed.

Lemma content_valid (content : string) (e : Article.Event) :
  Types.eventName e = "article:content_updated" ->
  Types.body e = [("content", VStr content)] ->
  Article.validEvent e = Nat.leb 1 (String.length content).
Proof.
  intros Hname Hbody. unfold Article.validEvent. rewrite Hname, Hbody.
  cbn -[Nat.leb String.length]. destruct (Nat.leb 1 _); reflexivity.
Qed.

(** X15: the checks of [updateTitle] and [updateContent] are those of the
    event schema: on a mutable article that is not archived, a title or a
    content that the schema of the event rejects is rejected by the method
    itself, with its own message and before anything is dispatched, and
    one that the schema accepts is dispatched. *)
Theorem update_guards_match_schema
        (amb : Entity.Ambient) (this : Article.Article) (o : object value)
        (e : Article.Event) :
  Entity.readonly this = false ->
  Entity.state_ this = Some (VObj o) ->
  truthy (member o "isArchived") = false ->
  (forall title,
      Types.eventName e = "article:title_updated" ->
      Types.body e = [("title", VStr title)] ->
      if Article.validEvent e
      then Article.updateTitle Errors amb title this
           = Entity.dispatch (Article.articleSchema Errors)
               Article.articleReducer VUndefined amb
               (Types.eventName e) (Types.body e) Entity.noOptions this
      else Article.updateTitle Errors amb title this
           = (this, Throw (Error "Title cannot be empty")) \/
           Article.updateTitle Errors amb title this
           = (this, Throw (Error "Title cannot exceed 200 characters"))) /\
  (forall content,
      Types.eventName e = "article:content_updated" ->
      Types.body e = [("content", VStr content)] ->
      if Article.validEvent e
      then Article.updateContent Errors amb content this
           = Entity.dispatch (Article.articleSchema Errors)
               Article.articleReducer VUndefined amb
               (Types.eventName e) (Types.body e) Entity.noOptions this
      else Article.updateContent Errors amb content this
           = (this, Throw (Error "Content cannot be empty"))).
Proof.
  intros Hmutable Hs Harchived.
  assert (Hedit : Article.canEdit this = Ok true).
  { unfold Article.canEdit. rewrite (isArchived_of_object this o Hs).
    cbn [bind]. rewrite Harchived. reflexivity. }
  split.
  - intros title Hname Hbody. rewrite (title_valid title e Hname Hbody).
    rewrite Hname, Hbody.
    unfold Article.updateTitle, Article.mutation, Entity.mutation.
    rewrite Hmutable. unfold Article.guarded. rewrite Hedit.
    destruct (String.length title) as [|n]; [left; reflexivity|].
    cbn [Nat.eqb Nat.leb andb]. unfold Nat.ltb.
    change (Nat.leb n 199) with (Nat.leb (S n) 200).
    destruct (Nat.leb (S n) 200) eqn:Hle.
    + apply Nat.leb_le in Hle.
      replace (Nat.leb 201 (S n)) with false
        by (symmetry; apply Nat.leb_gt; lia).
      reflexivity.
    + apply Nat.leb_gt in Hle.
      replace (Nat.leb 201 (S n)) with true
        by (symmetry; apply Nat.leb_le; lia).
      right. reflexivity.
  - intros content Hname Hbody. rewrite (content_valid content e Hname Hbody).
    rewrite Hname, Hbody.
    unfold Article.updateContent, Article.mutation, Entity.mutation.
    rewrite Hmutable. unfold Article.guarded. rewrite Hedit.
    destruct (String.length content) as [|n]; reflexivity.
Qed.

End ArticleClass.

(** ** The properties above on the data of the scenarios *)

Lemma parseEvent_accepts_what_some_name_accepts_witness :
  wellFormed (Standard.event Scenario.userEvents) /\
  exists name,
    Standard.parseEventByName (Standard.standard Scenario.userEvents tt)
      name (VStr "Ada") = Ok (VStr "Ada").
Proof.
  assert (Hwf : wellFormed (Standard.event Scenario.userEvents)).
  { repeat constructor; cbn; intuition discriminate. }
  split; [exact Hwf|].
  exact (proj1 (parseEvent_accepts_what_some_name_accepts _ _ _ _ _
                  Scenario.userEvents tt (VStr "Ada") Hwf)
               (VStr "Ada") eq_refl).
Defined.

Lemma typebox_parsers_return_their_input_witness :
  exists value,
    Standard.parseEventByName (Standard.standard Scenario.flagEvents tt)
      "flag:raised" (VBool true) = Ok value /\
    value = VBool true.
Proof.
  exists (VBool true). split; [reflexivity|].
  refine (proj1 (proj2 (typebox_parsers_return_their_input
                          Scenario.flagEvents tt _ _))
                "flag:raised" (VBool true) (VBool true) eq_refl).
  - intros name schema [[= <- <-]|[]]. eexists. reflexivity.
  - eexists. reflexivity.
Defined.

Lemma getters_agree_witness :
  exists canPublish canUnpublish,
    Article.canPublish Scenario.publishedMutable = Ok canPublish /\
    Article.canUnpublish Scenario.publishedMutable = Ok canUnpublish /\
    Article.isDraft Scenario.publishedMutable = Ok canPublish /\
    Article.canEdit Scenario.publishedMutable
    = Ok (xorb canPublish canUnpublish) /\
    canPublish && canUnpublish = false /\
    (truthy (member Scenario.publishedFields "isArchived") = true ->
     canPublish = false /\ canUnpublish = false).
Proof.
  exact (getters_agree Scenario.publishedMutable Scenario.publishedFields
           eq_refl).
Defined.

Lemma wrong_state_is_rejected_witness :
  Article.publish Scenario.noErrors Scenario.atUpdate
    (Some 1705314720000%Z) Scenario.publishedMutable
  = (Scenario.publishedMutable,
     Throw (Error "Article is already published")).
Proof.
  exact (proj1 (proj2 (wrong_state_is_rejected Scenario.noErrors
                         Scenario.atUpdate Scenario.publishedMutable
                         Scenario.publishedFields eq_refl eq_refl))
               eq_refl eq_refl (Some 1705314720000%Z)).
Defined.

Lemma update_guards_match_schema_witness :
  Article.updateTitle Scenario.noErrors Scenario.atUpdate "T3"
    Scenario.draftMutable
  = Entity.dispatch (Article.articleSchema Scenario.noErrors)
      Article.articleReducer VUndefined Scenario.atUpdate
      "article:title_updated" [("title", VStr "T3")] Entity.noOptions
      Scenario.draftMutable.
Proof.
  exact (proj1 (update_guards_match_schema Scenario.noErrors
                  Scenario.atUpdate Scenario.draftMutable
                  Scenario.draftFields
                  {| Types.eventId := "e-3";
                     Types.eventCreatedAt := "2024-01-15T10:33:00.000Z";
                     Types.entityName := "article";
                     Types.entityId := "article-1";
                     Types.eventName := "article:title_updated";
                     Types.body := [("title", VStr "T3")] |}
                  eq_refl eq_refl eq_refl)
               "T3" eq_refl eq_refl).
Defined.

(** ** A typebox validator behind [standardValidate] *)

Lemma pathStr_Issue (error : TLocalizedValidationError) :
  Standard.pathStr (Issue error)
  = match PathSegments (instancePath error) with
    | [] => "(root)"
    | segments => join "." segments
    end.
Proof.
  unfold Standard.pathStr, Issue. cbn [StandardSchemaV1.path].
  destruct (PathSegments (instancePath error)) as [|segment segments];
    [reflexivity|].
  cbn [map Standard.keyToString]. do 2 f_equal.
  rewrite map_map. apply map_id.
Qed.

(** X16: validating with a typebox schema returns the input itself when
    the check passes; when it fails, the error message is the header
    followed by one line per typebox error, in order, in which the error's
    JSON Pointer is written as its segments joined by dots, [(root)] for
    the empty pointer, before the error's message.  The pointer of a
    sequence of property names is written as those names. *)
Theorem typebox_failure_message
        {Value : Type} (validator : Validator Value) (input : Value)
        (eventName : option string) :
  Standard.standardValidate (typeboxToStandardSchema validator) input eventName
  = (if Check validator input then Ok input
     else Throw (Error
            (Standard.header eventName ++
             String.concat ""
               (map (fun error =>
                       newline ++ "  - " ++
                       match PathSegments (instancePath error) with
                       | [] => "(root)"
                       | segments => join "." segments
                       end ++ ": " ++ message error)
                    (Errors validator input)))%string)) /\
  (forall segments text,
      Standard.issueLine
        (Issue {| instancePath := pointer segments; message := text |})
      = ("  - " ++
         match segments with
         | [] => "(root)"
         | _ => join "." segments
         end ++ ": " ++ text)%string).
Proof.
  split.
  - unfold Standard.standardValidate.
    cbn [typeboxToStandardSchema StandardSchemaV1.validate]. unfold validate.
    destruct (Check validator input); [reflexivity|].
    cbv zeta. do 2 f_equal.
    change (Standard.formatStandardSchemaIssues
              (map (fun error => Issue error) (Errors validator input))
              eventName)
      with (let errors :=
              String.concat newline
                (map Standard.issueLine
                   (map (fun error => Issue error) (Errors validator input))) in
            if String.eqb errors "" then Standard.header eventName
            else (Standard.header eventName ++ newline ++ errors)%string).
    cbv zeta. rewrite map_map.
    destruct (Errors validator input) as [|error errors].
    + cbn. symmetry. apply append_empty.
    + cbn [map].
      rewrite headed_lines by (unfold Standard.issueLine; discriminate).
      cbn [map]. rewrite map_map. unfold Standard.issueLine.
      rewrite pathStr_Issue. f_equal. f_equal. f_equal.
      apply map_ext. intros e. rewrite pathStr_Issue. reflexivity.
  - intros segments text. unfold Standard.issueLine.
    rewrite pathStr_Issue. cbn [instancePath message StandardSchemaV1.message Issue].
    rewrite PathSegments_pointer. destruct segments; reflexivity.
Qed.

(** The message of the run of [Scenario.titleAndTags] on
    [Scenario.untitled], spelled out. *)
Example untitled_message :
  Standard.standardValidate
    (typeboxToStandardSchema Scenario.titleAndTags) Scenario.untitled
    (Some "post:created")
  = Throw (Error
      ("Validation failed: " ++ dquote ++ "post:created" ++ dquote ++
       newline ++ "  - tags.0: must be string" ++
       newline ++ "  - title: must not have fewer than 1 characters")).
Proof. reflexivity. Qed.

(** ** The scenario, end to end *)

(** C3, amended: over a Prisma client whose event table keeps insertion
    order, on a database that holds no event of the article and with a
    commit that resolves, creating an article with the initial body
    [{title: "T", content: "C", author: "A", tags: []}], calling
    [updateTitle("T2")], committing and finding it again yields the state
    [{title: "T2", content: "C", author: "A", tags: [], isPublished: false,
    publishedAt: undefined, isArchived: false, archivedReason: undefined,
    archivedAt: undefined}] and exactly the two persisted events
    [article:created], [article:title_updated], in that order; folding the
    reducer over those two events from the [undefined] seed gives the same
    state. *)
Theorem create_update_commit_find
        (Errors : forall Value : Type, TypeBox.TSchema -> Value ->
                  list TypeboxStandard.TLocalizedValidationError)
        (parseOther : string -> option Z)
        {SnapshotRow DB Query : Type}
        (options : VentydAdapterOptions (object value) Article.State
                     SnapshotRow DB Query)
        (table : DB -> list (BaseEventTypeRow (object value)))
        (db db' : DB) :
  InsertionOrdered options table ->
  filter (asked {| where_entityName := "article";
                   where_entityId := "article-1" |}) (table db) = [] ->
  commitEvents (prismaAdapter parseOther options)
    [Scenario.created; Scenario.titleUpdated] "article-1"
    Scenario.nineFields db = (db', Ok tt) ->
  Scenario.createUpdateCommitFind Errors DB
    (prismaAdapter parseOther options) db
  = Ok (Some Scenario.nineFields,
        [Scenario.created; Scenario.titleUpdated]) /\
  map Types.eventName [Scenario.created; Scenario.titleUpdated]
  = ["article:created"; "article:title_updated"] /\
  Article.replay [Scenario.created; Scenario.titleUpdated]
  = Scenario.nineFields.
Proof.
  intros [Hread Hwrite] Hnone Hcommit.
  split; [|split; [reflexivity | apply replay_created_title_updated]].
  assert (Hstored :
            getEventsByEntityId (prismaAdapter parseOther options)
              "article" "article-1" db'
            = (db', Ok [Scenario.created; Scenario.titleUpdated])).
  { cbn [getEventsByEntityId prismaAdapter].
    cbn [commitEvents prismaAdapter] in Hcommit.
    rewrite Hread, (Hwrite _ _ _ _ Hcommit), filter_app, Hnone.
    cbn [app bind]. reflexivity. }
  unfold Scenario.createUpdateCommitFind.
  match goal with
  | |- context [Article.create ?E ?a ?b ?c ?d] =>
      let t := eval vm_compute in (Article.create E a b c d) in
      replace (Article.create E a b c d) with t by (vm_compute; reflexivity)
  end.
  cbn [bind].
  match goal with
  | |- context [Article.updateTitle ?E ?a ?t ?x] =>
      let r := eval vm_compute in (Article.updateTitle E a t x) in
      replace (Article.updateTitle E a t x) with r
        by (vm_compute; reflexivity)
  end.
  cbn [bind].
  unfold Entity.commit.
  cbn [Entity.state Entity.state_ Entity.flush Entity.queuedEvents
       Entity.entityId].
  match goal with
  | |- context [commitEvents ?A ?events ?id ?state db] =>
      change (commitEvents A events id state db)
        with (commitEvents A [Scenario.created; Scenario.titleUpdated]
                "article-1" Scenario.nineFields db)
  end.
  rewrite Hcommit. cbn [bind Entity.entityId].
  unfold Entity.findOne.
  change (Entity.schema_entityName (Article.articleSchema Errors))
    with "article".
  rewrite Hstored. cbn [bind]. rewrite Hstored. cbn [bind].
  unfold Entity.loadFromEvents. cbn [Entity.state_].
  change (fold_left Article.articleReducer
            [Scenario.created; Scenario.titleUpdated] VUndefined)
    with (Article.replay [Scenario.created; Scenario.titleUpdated]).
  replace (Article.replay [Scenario.created; Scenario.titleUpdated])
    with Scenario.nineFields
    by (symmetry; apply replay_created_title_updated).
  reflexivity.
Qed.

Lemma create_update_commit_find_witness :
  Scenario.createUpdateCommitFind Scenario.noErrors Article.DB
    (prismaAdapter Scenario.strictEngine Article.prisma) MemoryPrisma.empty
  = Ok (Some Scenario.nineFields,
        [Scenario.created; Scenario.titleUpdated]).
Proof.
  refine (proj1 (create_update_commit_find Scenario.noErrors
                   Scenario.strictEngine Article.prisma MemoryPrisma.events
                   MemoryPrisma.empty Scenario.twoEvents _ _ _)).
  - apply memory_client_insertion_ordered.
  - reflexivity.
  - reflexivity.
Defined.
